(** * knx/cemi: the CEMI frame codec

    A shallow embedding of [knx/cemi/cemi.go] and [knx/cemi/lbusmon.go]:
    message codes, the additional-information segment [Info], the raw
    [UnsupportedMessage], the bus-monitor body [LBusmonInd] and the frame
    level [Unpack]/[Size]/[Pack].

    Go values are modelled as follows.
    - [uint8], [byte] and [MessageCode] are [Byte.byte]; a conversion
      [uint8(n)] keeps the low eight bits.
    - [uint], [int] and [int64] lengths and counts are [nat]: every number the
      code computes is a slice length plus at most 256, which cannot wrap.
    - a slice is its visible elements together with the rest of its backing
      array up to the capacity, because a slice expression is checked
      against the capacity and may bring those bytes into view.
    - a write through a sub-slice [s[lo:]] is carried back to [s], which
      shares its backing array ([store_back]); the code keeps no other pair
      of live slices over one array.
    - a run-time panic is an outcome of its own, next to an [error] value
      that is returned to the caller. *)

From Stdlib Require Import List Arith Lia Bool String Ascii NArith HexString.
From Stdlib.Strings Require Import Byte.
Import ListNotations.

Set Implicit Arguments.

(** ** The Go run time: panics and byte slices *)
Module Go.

Inductive panic : Type :=
| IndexOutOfRange
| SliceBoundsOutOfRange.

Inductive outcome (A : Type) : Type :=
| Done (a : A)
| Panics (p : panic).
Arguments Done {A} a.
Arguments Panics {A} p.

Definition bind {A B : Type} (c : outcome A) (k : A -> outcome B) : outcome B :=
  match c with
  | Done a => k a
  | Panics p => Panics p
  end.

(** The [error] interface. Which error values the helpers build is not
    visible from package cemi; callers only test an error against nil. *)
Inductive error : Type :=
| ErrUnexpectedEOF
| ErrOther (msg : string).

(** [uint8(n)] *)
Definition uint8_of_nat (n : nat) : byte :=
  match Byte.of_nat (n mod 256) with
  | Some b => b
  | None => x00
  end.

(** [[]byte]: [elems] are the [len] visible bytes, [spare] the bytes of the
    backing array between [len] and [cap]. *)
Record slice : Type := mkSlice { elems : list byte; spare : list byte }.

Definition len (s : slice) : nat := List.length (elems s).
Definition cap (s : slice) : nat := List.length (elems s) + List.length (spare s).
Definition backing (s : slice) : list byte := elems s ++ spare s.

(** the nil slice *)
Definition nil_slice : slice := mkSlice [] [].

(** [make([]byte, n)] *)
Definition make (n : nat) : slice := mkSlice (repeat x00 n) [].

(** a slice literal, [[]byte{...}] *)
Definition of_bytes (l : list byte) : slice := mkSlice l [].

(** [s[i]] *)
Definition index (s : slice) (i : nat) : outcome byte :=
  match nth_error (elems s) i with
  | Some b => Done b
  | None => Panics IndexOutOfRange
  end.

(** [s[i] = v] *)
Definition set_index (s : slice) (i : nat) (v : byte) : outcome slice :=
  if i <? len s
  then Done (mkSlice (firstn i (elems s) ++ v :: skipn (S i) (elems s)) (spare s))
  else Panics IndexOutOfRange.

(** [s[lo:hi]]: for a slice the bounds are checked against [cap(s)]. *)
Definition reslice (s : slice) (lo hi : nat) : outcome slice :=
  if (lo <=? hi) && (hi <=? cap s)
  then Done (mkSlice (firstn (hi - lo) (skipn lo (backing s))) (skipn hi (backing s)))
  else Panics SliceBoundsOutOfRange.

(** [s[lo:]] *)
Definition slice_from (s : slice) (lo : nat) : outcome slice := reslice s lo (len s).

(** [s[:hi]] *)
Definition slice_to (s : slice) (hi : nat) : outcome slice := reslice s 0 hi.

(** [copy(dst, src)]: the updated [dst] and the number of bytes copied. *)
Definition copy (dst src : slice) : slice * nat :=
  let n := Nat.min (len dst) (len src) in
  (mkSlice (firstn n (elems src) ++ skipn n (elems dst)) (spare dst), n).

(** [view] was obtained as [s[lo:]] and written through: the writes are
    seen through [s], which shares the backing array. *)
Definition store_back (s : slice) (lo : nat) (view : slice) : slice :=
  mkSlice (firstn lo (elems s) ++ elems view) (spare view).

(** [io.Writer] *)
Class Writer (W : Type) : Type :=
  { Write : W -> list byte -> W * nat * option error }.

(** [bytes.Buffer] as a sink: appends everything, never fails. *)
Definition Buffer : Type := list byte.

#[export] Instance Buffer_Writer : Writer Buffer :=
  { Write := fun w p => (w ++ p, List.length p, None) }.

End Go.

Import Go.

Notation "x <- c ;; k" := (Go.bind c (fun x => k))
(at level 61, c at next level, right associativity).

(** ** Package util (not part of this package's files) *)
Module util.

(** [util.Packable] *)
Class Packable (T : Type) : Type :=
  { Size : T -> nat;
    Pack : T -> slice -> outcome slice }.

(** Modelled from the spec: [util.Unpack(data, output)] for an output of
    type [*uint8], whose file is outside this package. It reads one byte
    and fails if [data] is empty. The result is the count, the error and
    the value left in [*output] (the declared zero when nothing is read). *)
Definition Unpack_uint8 (data : slice) : nat * option error * byte :=
  match elems data with
  | [] => (0, Some ErrUnexpectedEOF, x00)
  | b :: _ => (1, None, b)
  end.

(** Modelled from the spec: [util.PackSome(buffer, code, message)] for a
    [uint8] followed by a [Packable], whose file is outside this package.
    It writes the byte, then lets the value pack itself into the
    remainder of the buffer. *)
Definition PackSome {T : Type} `{Packable T}
           (buffer : slice) (b : byte) (x : T) : outcome slice :=
  buffer1 <- set_index buffer 0 b ;;
  rest <- slice_from buffer1 1 ;;
  rest' <- Pack x rest ;;
  Done (store_back buffer1 1 rest').

End util.

(** ** Package encoding (not part of this package's files) *)
Module encoding.

(** Modelled from the spec: [encoding.WriteSome(w, length, bytes)] for a
    [uint8] followed by a [[]byte], whose file is outside this package.
    It writes the values to the sink in order and stops at the first
    error. *)
Definition WriteSome {W : Type} `{Writer W}
           (w : W) (b : byte) (p : slice) : W * nat * option error :=
  let '(w1, n1, e1) := Write w [b] in
  match e1 with
  | Some e => (w1, n1, Some e)
  | None =>
      let '(w2, n2, e2) := Write w1 (elems p) in
      (w2, n1 + n2, e2)
  end.

End encoding.

(** ** Package fmt *)
Module fmt.

Definition hex_digit (n : nat) : ascii :=
  nth n (list_ascii_of_string "0123456789abcdef") "0"%char.

(** [fmt.Sprintf("%#x", b)] for a [uint8]: the prefix, then the digits in
    lower case without leading zeros. *)
Definition Sprintf_sharp_x (b : byte) : string :=
  let n := Byte.to_nat b in
  String "0" (String "x"
    (if n <? 16
     then String (hex_digit n) EmptyString
     else String (hex_digit (n / 16)) (String (hex_digit (n mod 16)) EmptyString))).

End fmt.

(** ** Package cemi *)
Module cemi.

Definition MessageCode : Type := byte.

Definition LBusmonIndCode : MessageCode := x2b.
Definition LDataReqCode : MessageCode := x11.
Definition LDataIndCode : MessageCode := x29.
Definition LDataConCode : MessageCode := x2e.
Definition LRawReqCode : MessageCode := x10.
Definition LRawIndCode : MessageCode := x2d.
Definition LRawConCode : MessageCode := x2f.

(** *** Info *)

Definition Info : Type := slice.

Definition Info_Size (info : Info) : nat :=
  if 255 <? len info then 256 else 1 + len info.

Definition Info_Pack (info : Info) (buffer : slice) : outcome slice :=
  buffer1 <- (if 255 <? len info
              then set_index buffer 0 xff
              else set_index buffer 0 (uint8_of_nat (len info))) ;;
  b0 <- index buffer1 0 ;;
  dst <- slice_from buffer1 1 ;;
  src <- slice_to info (Byte.to_nat b0) ;;
  Done (store_back buffer1 1 (fst (copy dst src))).

(** The receiver [*info] is threaded through: the result carries its new
    value, which is the old one when the function returns early. *)
Definition Info_Unpack (info : Info) (data : slice)
  : outcome (Info * nat * option error) :=
  let '(n, err, length) := util.Unpack_uint8 data in
  match err with
  | Some e => Done (info, n, Some e)
  | None =>
      if 0 <? Byte.to_nat length
      then
        let buf := make (Byte.to_nat length) in
        src <- reslice data n (n + Byte.to_nat length) ;;
        let '(buf', m) := copy buf src in
        Done (buf', n + m, None)
      else Done (nil_slice, n, None)
  end.

Definition Info_WriteTo {W : Type} `{Writer W} (info : Info) (w : W)
  : outcome (W * nat * option error) :=
  let length := uint8_of_nat (len info) in
  p <- slice_to info (Byte.to_nat length) ;;
  Done (encoding.WriteSome w length p).

#[export] Instance Info_Packable : util.Packable Info :=
  { util.Size := Info_Size; util.Pack := Info_Pack }.


(** *** MessageCode.String *)

Definition MessageCode_String (code : MessageCode) : string :=
  if Byte.eqb code LBusmonIndCode then "LBusmonInd"
  else if Byte.eqb code LDataReqCode then "LDataReq"
  else if Byte.eqb code LDataIndCode then "LDataInd"
  else if Byte.eqb code LDataConCode then "LDataCon"
  else if Byte.eqb code LRawReqCode then "LRawReq"
  else if Byte.eqb code LRawIndCode then "LRawInd"
  else if Byte.eqb code LRawConCode then "LRawCon"
  else fmt.Sprintf_sharp_x code.

(** The codes that have a case in the two switches. *)
Definition registered (code : MessageCode) : bool :=
  existsb (Byte.eqb code)
    [LBusmonIndCode; LDataReqCode; LDataIndCode; LDataConCode;
     LRawReqCode; LRawIndCode; LRawConCode].

(** *** UnsupportedMessage *)

Record UnsupportedMessage : Type :=
  mkUnsupportedMessage { Code : MessageCode; Data : slice }.

Definition UnsupportedMessage_Size (body : UnsupportedMessage) : nat :=
  len (Data body).

Definition UnsupportedMessage_Pack (body : UnsupportedMessage) (buffer : slice)
  : outcome slice :=
  Done (fst (copy buffer (Data body))).

Definition UnsupportedMessage_MessageCode (body : UnsupportedMessage) : MessageCode :=
  Code body.

Definition UnsupportedMessage_Unpack (body : UnsupportedMessage) (data : slice)
  : UnsupportedMessage * nat * option error :=
  let Data1 := if len (Data body) <? len data then make (len data) else Data body in
  let '(Data2, n) := copy Data1 data in
  (mkUnsupportedMessage (Code body) Data2, n, None).

Definition UnsupportedMessage_WriteTo {W : Type} `{Writer W}
           (body : UnsupportedMessage) (w : W) : W * nat * option error :=
  Write w (elems (Data body)).

(** *** LBusmonInd (lbusmon.go) *)

Definition LBusmonInd : Type := slice.

Definition LBusmonInd_MessageCode (_ : LBusmonInd) : MessageCode := LBusmonIndCode.

Definition LBusmonInd_WriteTo {W : Type} `{Writer W} (lbm : LBusmonInd) (w : W)
  : W * nat * option error :=
  Write w (elems lbm).

Definition LBusmonInd_Size (lbm : LBusmonInd) : nat := len lbm.

Definition LBusmonInd_Pack (lbm : LBusmonInd) (buffer : slice) : outcome slice :=
  Done (fst (copy buffer lbm)).

Definition LBusmonInd_Unpack (lbm : LBusmonInd) (data : slice)
  : LBusmonInd * nat * option error :=
  let target := lbm in
  let target1 := if len target <? len data then make (len data) else target in
  let '(target2, n) := copy target1 data in
  (target2, n, None).

(** *** The other message bodies

    [LDataReq], [LDataCon], [LDataInd], [LRawReq], [LRawCon] and [LRawInd]
    are declared in files outside the two embedded here. The frame functions
    only use their zero value and their methods, which are taken as
    parameters. [peer_Pack] returns the buffer it was handed, after its
    writes; [peer_Unpack] returns the filled body next to its two results. *)

Inductive peer : Type :=
| K_LDataReq | K_LDataCon | K_LDataInd | K_LRawReq | K_LRawCon | K_LRawInd.

Class Peers : Type :=
  { peer_body : peer -> Type;
    peer_zero : forall k, peer_body k;
    peer_MessageCode : forall k, peer_body k -> MessageCode;
    peer_Size : forall k, peer_body k -> nat;
    peer_Pack : forall k, peer_body k -> slice -> outcome slice;
    peer_Unpack : forall k, peer_body k -> slice
                            -> outcome (peer_body k * nat * option error) }.

(** One instance of the parameters, on which the frame theorems are
    exercised: every such body is a byte run that needs at least one
    byte. *)
Definition byte_run_peers : Peers :=
  {| peer_body := fun _ => slice;
     peer_zero := fun _ => nil_slice;
     peer_MessageCode := fun k _ =>
       match k with
       | K_LDataReq => LDataReqCode | K_LDataCon => LDataConCode
       | K_LDataInd => LDataIndCode | K_LRawReq => LRawReqCode
       | K_LRawCon => LRawConCode | K_LRawInd => LRawIndCode
       end;
     peer_Size := fun _ b => len b;
     peer_Pack := fun _ b buffer => Done (fst (copy buffer b));
     peer_Unpack := fun _ b data =>
       match elems data with
       | [] => Done (b, 0, Some ErrUnexpectedEOF)
       | _ :: _ => Done (of_bytes (elems data), len data, None)
       end |}.

(** The message code of each of these bodies: the constant documented for
    its message, which is also the case of the switch in [Unpack] that
    builds it. *)
Definition peer_code (k : peer) : MessageCode :=
  match k with
  | K_LDataReq => LDataReqCode
  | K_LDataCon => LDataConCode
  | K_LDataInd => LDataIndCode
  | K_LRawReq => LRawReqCode
  | K_LRawCon => LRawConCode
  | K_LRawInd => LRawIndCode
  end.

(** A second instance of the parameters, on which the round trip of a
    frame is exercised: every such body is a plain byte sequence that packs
    and unpacks as it is and reports its own code. *)
Definition plain_peers : Peers :=
  {| peer_body := fun _ => list byte;
     peer_zero := fun _ => [];
     peer_MessageCode := fun k _ => peer_code k;
     peer_Size := fun _ b => List.length b;
     peer_Pack := fun _ b buffer => Done (fst (copy buffer (of_bytes b)));
     peer_Unpack := fun _ _ data => Done (elems data, len data, None) |}.

Section Frame.

Context {P : Peers}.

(** *** Message

    The interface value: which body it holds. A nil interface is [None] of
    [option Message]. *)
Inductive Message : Type :=
| Message_LBusmonInd (lbm : LBusmonInd)
| Message_Unsupported (body : UnsupportedMessage)
| Message_peer (k : peer) (body : peer_body k).

Definition Message_MessageCode (message : Message) : MessageCode :=
  match message with
  | Message_LBusmonInd lbm => LBusmonInd_MessageCode lbm
  | Message_Unsupported body => UnsupportedMessage_MessageCode body
  | Message_peer k body => peer_MessageCode k body
  end.

Definition Message_Size (message : Message) : nat :=
  match message with
  | Message_LBusmonInd lbm => LBusmonInd_Size lbm
  | Message_Unsupported body => UnsupportedMessage_Size body
  | Message_peer k body => peer_Size k body
  end.

Definition Message_Pack (message : Message) (buffer : slice) : outcome slice :=
  match message with
  | Message_LBusmonInd lbm => LBusmonInd_Pack lbm buffer
  | Message_Unsupported body => UnsupportedMessage_Pack body buffer
  | Message_peer k body => peer_Pack k body buffer
  end.

(** [messageUnpackable]: the body is filled in place; the result carries the
    filled body next to the two results of the method. *)
Definition Message_Unpack (body : Message) (data : slice)
  : outcome (Message * nat * option error) :=
  match body with
  | Message_LBusmonInd lbm =>
      let '(lbm', n, err) := LBusmonInd_Unpack lbm data in
      Done (Message_LBusmonInd lbm', n, err)
  | Message_Unsupported body =>
      let '(body', n, err) := UnsupportedMessage_Unpack body data in
      Done (Message_Unsupported body', n, err)
  | Message_peer k body =>
      r <- peer_Unpack k body data ;;
      let '(body', n, err) := r in
      Done (Message_peer k body', n, err)
  end.

#[export] Instance Message_Packable : util.Packable Message :=
  { util.Size := Message_Size; util.Pack := Message_Pack }.

(** The switch of [Unpack]: the zero body for a message code. *)
Definition select_body (code : MessageCode) : Message :=
  if Byte.eqb code LBusmonIndCode then Message_LBusmonInd nil_slice
  else if Byte.eqb code LDataReqCode then Message_peer K_LDataReq (peer_zero K_LDataReq)
  else if Byte.eqb code LDataConCode then Message_peer K_LDataCon (peer_zero K_LDataCon)
  else if Byte.eqb code LDataIndCode then Message_peer K_LDataInd (peer_zero K_LDataInd)
  else if Byte.eqb code LRawReqCode then Message_peer K_LRawReq (peer_zero K_LRawReq)
  else if Byte.eqb code LRawConCode then Message_peer K_LRawCon (peer_zero K_LRawCon)
  else if Byte.eqb code LRawIndCode then Message_peer K_LRawInd (peer_zero K_LRawInd)
  else Message_Unsupported (mkUnsupportedMessage code nil_slice).

(** [Unpack(data, message)]: [message] is the value the caller's pointer
    holds before the call, the first component of the result the value it
    holds afterwards. The pointer itself is taken to be non-nil: a call
    with a nil pointer, which panics at [*message = body], is not an input
    of this definition. *)
Definition Unpack (data : slice) (message : option Message)
  : outcome (option Message * nat * option error) :=
  let '(n, err, code) := util.Unpack_uint8 data in
  match err with
  | Some e => Done (message, n, Some e)
  | None =>
      let body := select_body code in
      rest <- slice_from data n ;;
      r <- Message_Unpack body rest ;;
      let '(body', m, err) := r in
      Done (match err with
            | None => Some body'
            | Some _ => message
            end, n + m, err)
  end.

Definition Size (message : Message) : nat := 1 + util.Size message.

Definition Pack (buffer : slice) (message : Message) : outcome slice :=
  util.PackSome buffer (Message_MessageCode message) message.

End Frame.

End cemi.

Import cemi.

(** * Properties *)

(** ** Facts about the run-time model *)
Module GoFacts.

Lemma to_nat_uint8_of_nat (n : nat) :
  Byte.to_nat (uint8_of_nat n) = n mod 256.
Proof.
  unfold uint8_of_nat.
  destruct (Byte.of_nat (n mod 256)) as [b|] eqn:E.
  - now apply Byte.to_of_nat.
  - apply Byte.of_nat_None_iff in E.
    pose proof (Nat.mod_upper_bound n 256). lia.
Qed.

Lemma uint8_of_nat_small (n : nat) :
  n <= 255 -> Byte.to_nat (uint8_of_nat n) = n.
Proof.
  intros Hn. rewrite to_nat_uint8_of_nat. apply Nat.mod_small. lia.
Qed.

Lemma len_make (n : nat) : len (make n) = n.
Proof. unfold len, make; simpl. apply repeat_length. Qed.

Lemma len_of_bytes (l : list byte) : len (of_bytes l) = List.length l.
Proof. reflexivity. Qed.

Lemma set_index_head (s : slice) (v : byte) :
  1 <= len s ->
  set_index s 0 v = Done (mkSlice (v :: tl (elems s)) (spare s)).
Proof.
  intros Hs. unfold set_index.
  destruct (Nat.ltb_spec 0 (len s)) as [_|?]; [|lia].
  unfold len in Hs. destruct (elems s); simpl in *; [lia | reflexivity].
Qed.

Lemma reslice_in_bounds (s : slice) (lo hi : nat) :
  lo <= hi -> hi <= cap s ->
  reslice s lo hi =
    Done (mkSlice (firstn (hi - lo) (skipn lo (backing s))) (skipn hi (backing s))).
Proof.
  intros H1 H2. unfold reslice.
  destruct (Nat.leb_spec lo hi); [|lia].
  destruct (Nat.leb_spec hi (cap s)); [reflexivity | lia].
Qed.

Lemma reslice_out_of_bounds (s : slice) (lo hi : nat) :
  cap s < hi -> reslice s lo hi = Panics SliceBoundsOutOfRange.
Proof.
  intros H. unfold reslice.
  destruct (Nat.leb_spec hi (cap s)); [lia|].
  now rewrite andb_false_r.
Qed.

(** Within the length, a slice expression only sees visible elements. *)
Lemma reslice_visible (s : slice) (lo hi : nat) :
  lo <= hi -> hi <= len s ->
  reslice s lo hi =
    Done (mkSlice (firstn (hi - lo) (skipn lo (elems s)))
                  (skipn hi (elems s) ++ spare s)).
Proof.
  intros H1 H2. unfold len in H2.
  rewrite reslice_in_bounds; [|lia|unfold cap; lia].
  unfold backing. rewrite !skipn_app.
  replace (lo - List.length (elems s)) with 0 by lia.
  replace (hi - List.length (elems s)) with 0 by lia.
  simpl skipn. rewrite firstn_app.
  rewrite length_skipn.
  replace (hi - lo - (List.length (elems s) - lo)) with 0 by lia.
  now rewrite firstn_O, app_nil_r.
Qed.

Lemma slice_from_visible (s : slice) (lo : nat) :
  lo <= len s ->
  slice_from s lo = Done (mkSlice (skipn lo (elems s)) (spare s)).
Proof.
  intros H. unfold slice_from. rewrite reslice_visible by lia.
  unfold len. rewrite skipn_all. simpl.
  rewrite firstn_all2; [reflexivity|].
  rewrite length_skipn. lia.
Qed.

Lemma slice_to_visible (s : slice) (hi : nat) :
  hi <= len s ->
  slice_to s hi = Done (mkSlice (firstn hi (elems s)) (skipn hi (elems s) ++ spare s)).
Proof.
  intros H. unfold slice_to. rewrite reslice_visible by lia.
  now rewrite Nat.sub_0_r.
Qed.

Lemma copy_fits (dst src : slice) :
  len src <= len dst ->
  copy dst src =
    (mkSlice (elems src ++ skipn (len src) (elems dst)) (spare dst), len src).
Proof.
  intros H. unfold copy. rewrite Nat.min_r by lia.
  unfold len. now rewrite firstn_all.
Qed.

Lemma copy_exact (dst src : slice) :
  len dst = len src ->
  copy dst src = (mkSlice (elems src) (spare dst), len src).
Proof.
  intros H. rewrite copy_fits by lia.
  rewrite <- H. unfold len. now rewrite skipn_all, app_nil_r.
Qed.

Lemma len_copy (dst src : slice) : len (fst (copy dst src)) = len dst.
Proof.
  unfold copy, len; simpl.
  rewrite length_app, length_firstn, length_skipn. lia.
Qed.

End GoFacts.

Import GoFacts.

(** ** Info *)

(** The two branches of [Info.Pack] store the clamped length. *)
Lemma Info_Pack_length_byte (info : Info) (buffer : slice) :
  (if 255 <? len info
   then set_index buffer 0 xff
   else set_index buffer 0 (uint8_of_nat (len info)))
  = set_index buffer 0 (uint8_of_nat (Nat.min 255 (len info))).
Proof.
  destruct (Nat.ltb_spec 255 (len info)).
  - now rewrite Nat.min_l by lia.
  - now rewrite Nat.min_r by lia.
Qed.

Lemma Info_Size_min (info : Info) :
  Info_Size info = 1 + Nat.min 255 (len info).
Proof.
  unfold Info_Size. destruct (Nat.ltb_spec 255 (len info)); lia.
Qed.

Lemma skipn_tl {A : Type} (n : nat) (l : list A) :
  skipn n (tl l) = skipn (S n) l.
Proof. destruct l; simpl; [now rewrite skipn_nil | reflexivity]. Qed.

(** What [Info.Pack] leaves in a buffer that is long enough. *)
Lemma Info_Pack_result (info : Info) (buffer : slice) :
  Info_Size info <= len buffer ->
  Info_Pack info buffer =
    Done (mkSlice (uint8_of_nat (Nat.min 255 (len info))
                     :: firstn (Nat.min 255 (len info)) (elems info)
                     ++ skipn (S (Nat.min 255 (len info))) (elems buffer))
                  (spare buffer)).
Proof.
  intros Hsize. rewrite Info_Size_min in Hsize.
  unfold Info_Pack. rewrite Info_Pack_length_byte.
  set (m := Nat.min 255 (len info)) in *.
  assert (Hm : m <= 255) by (subst m; lia).
  assert (Hm' : m <= len info) by (subst m; lia).
  rewrite set_index_head by lia. cbn [bind index elems nth_error].
  rewrite slice_from_visible
    by (unfold len in *; simpl; destruct (elems buffer); simpl in *; lia).
  cbn [bind elems spare skipn].
  rewrite uint8_of_nat_small by assumption.
  rewrite slice_to_visible by assumption.
  cbn [bind].
  rewrite copy_fits.
  - unfold store_back, len. cbn [fst elems spare firstn app].
    rewrite firstn_length_le by assumption.
    now rewrite skipn_tl.
  - unfold len in *. cbn [elems].
    rewrite firstn_length_le by assumption.
    destruct (elems buffer); simpl in *; lia.
Qed.

(** [Info.Unpack] on an input that holds the announced bytes. *)
Lemma Info_Unpack_complete (info : Info) (data : slice) (l : byte) (rest : list byte) :
  elems data = l :: rest ->
  Byte.to_nat l <= List.length rest ->
  Info_Unpack info data
  = Done (of_bytes (firstn (Byte.to_nat l) rest), 1 + Byte.to_nat l, None).
Proof.
  intros Hdata Hlen.
  unfold Info_Unpack, util.Unpack_uint8. rewrite Hdata.
  destruct (Nat.ltb_spec 0 (Byte.to_nat l)) as [Hpos|Hzero].
  - rewrite reslice_visible by (unfold len; rewrite ?Hdata; simpl; lia).
    rewrite Hdata. cbn [bind skipn].
    replace (1 + Byte.to_nat l - 1) with (Byte.to_nat l) by lia.
    rewrite copy_exact.
    + unfold len. cbn [elems]. now rewrite firstn_length_le by assumption.
    + rewrite len_make. unfold len. cbn [elems].
      now rewrite firstn_length_le by assumption.
  - replace (Byte.to_nat l) with 0 by lia. reflexivity.
Qed.

(** [Info.Unpack] on an input that is shorter than announced: the slice
    expression [data[n:n+length]] is evaluated whatever [len(data)] is. It
    panics when the capacity is too small as well, and otherwise reads the
    bytes that lie behind the end of [data]. *)
Lemma Info_Unpack_short (info : Info) (data : slice) (l : byte) (rest : list byte) :
  elems data = l :: rest ->
  List.length rest < Byte.to_nat l ->
  Info_Unpack info data =
    if 1 + Byte.to_nat l <=? cap data
    then Done (of_bytes (firstn (Byte.to_nat l) (rest ++ spare data)),
               1 + Byte.to_nat l, None)
    else Panics SliceBoundsOutOfRange.
Proof.
  intros Hdata Hlen.
  unfold Info_Unpack, util.Unpack_uint8. rewrite Hdata.
  destruct (Nat.ltb_spec 0 (Byte.to_nat l)) as [Hpos|Hzero]; [|lia].
  destruct (Nat.leb_spec (1 + Byte.to_nat l) (cap data)) as [Hcap|Hcap].
  - rewrite reslice_in_bounds by lia.
    unfold backing. rewrite Hdata. cbn [bind skipn app].
    replace (1 + Byte.to_nat l - 1) with (Byte.to_nat l) by lia.
    assert (Hl : List.length (firstn (Byte.to_nat l) (rest ++ spare data))
                 = Byte.to_nat l).
    { apply firstn_length_le. rewrite length_app.
      unfold cap in Hcap. rewrite Hdata in Hcap. simpl in Hcap. lia. }
    rewrite copy_exact.
    + unfold len. cbn [elems]. now rewrite Hl.
    + rewrite len_make. unfold len. cbn [elems]. now rewrite Hl.
  - now rewrite reslice_out_of_bounds by lia.
Qed.

(** On such an input [Info.Unpack] does not return an error. *)
Lemma Info_Unpack_short_no_error (info : Info) (data : slice) (l : byte) (rest : list byte) :
  elems data = l :: rest ->
  List.length rest < Byte.to_nat l ->
  forall (info' : Info) (n : nat) (e : error),
    Info_Unpack info data <> Done (info', n, Some e).
Proof.
  intros Hdata Hlen info' n e.
  rewrite (Info_Unpack_short info data Hdata Hlen).
  destruct (1 + Byte.to_nat l <=? cap data); discriminate.
Qed.

(** C1 (the code departs from it). The claim: a buffer that starts with the
    length byte L and holds fewer than 1 + L bytes makes [Info.Unpack]
    return an error. On the two-byte buffer [{3, 1}] (capacity 2) the call
    panics with a slice-bounds failure; on the same two bytes seen through a
    longer backing array it succeeds and returns three bytes, two of them
    from behind the end of the input. *)
Theorem Info_Unpack_truncated_input :
  Info_Unpack nil_slice (of_bytes [x03; x01]) = Panics SliceBoundsOutOfRange
  /\ Info_Unpack nil_slice (mkSlice [x03; x01] [x07; x08])
     = Done (of_bytes [x01; x07; x08], 4, None).
Proof. split; reflexivity. Qed.

(** C4. An [Info] of more than 255 bytes has [Size] 256; [Pack] stores the
    length byte 255 followed by the first 255 bytes of the sequence and
    nothing else of it; decoding the packed buffer yields those 255
    bytes, consuming 256. *)
Theorem Info_over_255_truncated (info : Info) (buffer : slice) :
  255 < len info ->
  256 <= len buffer ->
  Info_Size info = 256
  /\ exists buffer' : slice,
      Info_Pack info buffer = Done buffer'
      /\ elems buffer' = xff :: firstn 255 (elems info) ++ skipn 256 (elems buffer)
      /\ forall receiver : Info,
          Info_Unpack receiver buffer'
          = Done (of_bytes (firstn 255 (elems info)), 256, None)
          /\ len (of_bytes (firstn 255 (elems info))) = 255.
Proof.
  intros Hinfo Hbuf.
  assert (Hsize : Info_Size info = 256)
    by (rewrite Info_Size_min; rewrite Nat.min_l by lia; reflexivity).
  split; [assumption|].
  eexists. split; [apply Info_Pack_result; lia|].
  rewrite Nat.min_l by lia.
  change (uint8_of_nat 255) with xff.
  cbn [elems]. split; [reflexivity|].
  intros receiver.
  assert (H255 : List.length (firstn 255 (elems info)) = 255)
    by (apply firstn_length_le; unfold len in Hinfo; lia).
  split; [|exact H255].
  erewrite Info_Unpack_complete; [|reflexivity|].
  - change (Byte.to_nat xff) with 255.
    rewrite firstn_app, H255, Nat.sub_diag, firstn_O, app_nil_r.
    rewrite firstn_all2 by lia. reflexivity.
  - change (Byte.to_nat xff) with 255. rewrite length_app. lia.
Qed.

Lemma Info_over_255_truncated_witness :
  let info := of_bytes (repeat x01 300) in
  let buffer := make 256 in
  Info_Size info = 256
  /\ exists buffer' : slice,
      Info_Pack info buffer = Done buffer'
      /\ elems buffer' = xff :: firstn 255 (elems info) ++ skipn 256 (elems buffer)
      /\ forall receiver : Info,
          Info_Unpack receiver buffer'
          = Done (of_bytes (firstn 255 (elems info)), 256, None)
          /\ len (of_bytes (firstn 255 (elems info))) = 255.
Proof.
  apply (@Info_over_255_truncated (of_bytes (repeat x01 300)) (make 256)).
  - vm_compute. lia.
  - vm_compute. lia.
Defined.

(** C10. In a buffer of at least [Size()] bytes, [Info.Pack] writes the
    length byte and the min(255, len(info)) bytes behind it; the buffer keeps
    its length, and every byte at an index at or beyond
    min(255, len(info)) + 1 keeps its previous value. *)
Theorem Info_Pack_frame (info : Info) (buffer : slice) :
  Info_Size info <= len buffer ->
  exists buffer' : slice,
    Info_Pack info buffer = Done buffer'
    /\ len buffer' = len buffer
    /\ spare buffer' = spare buffer
    /\ firstn (Nat.min 255 (len info) + 1) (elems buffer')
       = uint8_of_nat (Nat.min 255 (len info))
           :: firstn (Nat.min 255 (len info)) (elems info)
    /\ forall i : nat,
        Nat.min 255 (len info) + 1 <= i ->
        nth_error (elems buffer') i = nth_error (elems buffer) i.
Proof.
  intros Hsize.
  eexists. split; [now apply Info_Pack_result|].
  rewrite Info_Size_min in Hsize.
  set (m := Nat.min 255 (len info)) in *.
  assert (Hm : List.length (firstn m (elems info)) = m)
    by (apply firstn_length_le; subst m; unfold len; lia).
  unfold len in *. cbn [elems spare].
  repeat split.
  - cbn [List.length]. rewrite length_app, Hm, length_skipn. lia.
  - replace (m + 1) with (S m) by lia.
    rewrite firstn_cons, firstn_app, Hm, Nat.sub_diag, firstn_O, app_nil_r.
    now rewrite firstn_all2 by lia.
  - intros i Hi.
    rewrite app_comm_cons, nth_error_app.
    cbn [List.length]. rewrite Hm.
    destruct (Nat.ltb_spec i (S m)); [lia|].
    rewrite nth_error_skipn. f_equal. lia.
Qed.

Lemma Info_Pack_frame_witness :
  let info := of_bytes [x0a; x0b] in
  let buffer := of_bytes [x01; x02; x03; x04; x05] in
  Info_Size info <= len buffer
  /\ exists buffer' : slice,
      Info_Pack info buffer = Done buffer'
      /\ len buffer' = len buffer
      /\ spare buffer' = spare buffer
      /\ firstn (Nat.min 255 (len info) + 1) (elems buffer')
         = uint8_of_nat (Nat.min 255 (len info))
             :: firstn (Nat.min 255 (len info)) (elems info)
      /\ forall i : nat,
          Nat.min 255 (len info) + 1 <= i ->
          nth_error (elems buffer') i = nth_error (elems buffer) i.
Proof.
  split.
  - vm_compute. lia.
  - apply (@Info_Pack_frame (of_bytes [x0a; x0b])
                            (of_bytes [x01; x02; x03; x04; x05])).
    vm_compute. lia.
Defined.

(** C5. [Info.WriteTo] hands the sink one byte holding the length modulo
    256, then that many bytes from the start of the sequence. *)
Theorem Info_WriteTo_wraps (info : Info) (w : Buffer) :
  exists length : byte,
    Byte.to_nat length = len info mod 256
    /\ Info_WriteTo info w
       = Done (w ++ length :: firstn (len info mod 256) (elems info),
               1 + len info mod 256, None).
Proof.
  exists (uint8_of_nat (len info)).
  split; [apply to_nat_uint8_of_nat|].
  unfold Info_WriteTo. rewrite to_nat_uint8_of_nat.
  assert (Hle : len info mod 256 <= len info) by (apply Nat.Div0.mod_le).
  rewrite slice_to_visible by assumption.
  cbn [bind]. unfold encoding.WriteSome. cbn [Write Buffer_Writer elems].
  rewrite <- app_assoc. cbn [app List.length].
  rewrite firstn_length_le by (exact Hle).
  reflexivity.
Qed.

(** An [Info] of 300 bytes: the stream gets the length byte 44 and 44
    bytes, where [Pack] stores 255 and 255 bytes. *)
Example Info_WriteTo_300 :
  Info_WriteTo (of_bytes (repeat x01 300)) ([] : Buffer)
  = Done (x2c :: repeat x01 44, 45, None).
Proof. vm_compute. reflexivity. Qed.

(** ** LBusmonInd and UnsupportedMessage *)

(** A receiver that is not longer than the input ends up holding the input. *)
Lemma LBusmonInd_Unpack_fresh (lbm : LBusmonInd) (data : slice) :
  len lbm < len data \/ (len lbm = len data /\ spare lbm = []) ->
  LBusmonInd_Unpack lbm data = (of_bytes (elems data), len data, None).
Proof.
  intros H. unfold LBusmonInd_Unpack.
  destruct (Nat.ltb_spec (len lbm) (len data)) as [Hlt|Hge].
  - rewrite copy_exact by apply len_make. reflexivity.
  - destruct H as [H|[H Hs]]; [lia|].
    rewrite copy_exact by assumption. now rewrite Hs.
Qed.

(** A receiver that is longer than the input keeps its length and its
    trailing bytes. *)
Lemma LBusmonInd_Unpack_longer_receiver (lbm : LBusmonInd) (data : slice) :
  len data <= len lbm ->
  LBusmonInd_Unpack lbm data
  = (mkSlice (elems data ++ skipn (len data) (elems lbm)) (spare lbm),
     len data, None).
Proof.
  intros H. unfold LBusmonInd_Unpack.
  destruct (Nat.ltb_spec (len lbm) (len data)); [lia|].
  now rewrite copy_fits by assumption.
Qed.

Lemma LBusmonInd_Unpack_len (lbm : LBusmonInd) (data : slice) :
  len (fst (fst (LBusmonInd_Unpack lbm data))) = Nat.max (len lbm) (len data).
Proof.
  destruct (Nat.le_gt_cases (len data) (len lbm)) as [H|H].
  - rewrite LBusmonInd_Unpack_longer_receiver by assumption.
    unfold len in *. cbn [fst elems].
    rewrite length_app, length_skipn. lia.
  - rewrite LBusmonInd_Unpack_fresh by (left; assumption).
    cbn [fst]. rewrite len_of_bytes. unfold len in *. lia.
Qed.

(** C3 (the code departs from it). The claim: whatever the receiver holds,
    the decoded value has the length of the input. A receiver holding
    [{1, 2, 3}] that decodes [{9}] ends up holding [{9, 2, 3}]: one byte is
    reported as consumed, the value is three bytes long and its last two
    bytes are left over from before. *)
Theorem LBusmonInd_Unpack_keeps_stale_bytes :
  LBusmonInd_Unpack (of_bytes [x01; x02; x03]) (of_bytes [x09])
  = (of_bytes [x09; x02; x03], 1, None)
  /\ len (fst (fst (LBusmonInd_Unpack (of_bytes [x01; x02; x03]) (of_bytes [x09]))))
     <> len (of_bytes [x09]).
Proof. split; [reflexivity | vm_compute; discriminate]. Qed.

Lemma UnsupportedMessage_Unpack_fresh (body : UnsupportedMessage) (data : slice) :
  len (Data body) < len data \/ (len (Data body) = len data /\ spare (Data body) = []) ->
  UnsupportedMessage_Unpack body data
  = (mkUnsupportedMessage (Code body) (of_bytes (elems data)), len data, None).
Proof.
  intros H. unfold UnsupportedMessage_Unpack.
  destruct (Nat.ltb_spec (len (Data body)) (len data)) as [Hlt|Hge].
  - rewrite copy_exact by apply len_make. reflexivity.
  - destruct H as [H|[H Hs]]; [lia|].
    rewrite copy_exact by assumption. now rewrite Hs.
Qed.

Lemma nil_slice_fresh (data : slice) :
  len nil_slice < len data \/ (len nil_slice = len data /\ spare nil_slice = []).
Proof.
  unfold len at 1 3. cbn [elems nil_slice List.length spare].
  destruct (len data); [right; split; reflexivity | left; lia].
Qed.

(** ** MessageCode *)

(** C8. [String] returns the fixed name of each of the seven registered
    codes, and for every other code the hexadecimal rendering of the
    byte (the prefix 0x and the digits, as the library prints a number). *)
Theorem MessageCode_String_cases (code : MessageCode) :
  (registered code = true
   /\ In (code, MessageCode_String code)
        [(LBusmonIndCode, "LBusmonInd"%string);
         (LDataReqCode, "LDataReq"%string);
         (LDataIndCode, "LDataInd"%string);
         (LDataConCode, "LDataCon"%string);
         (LRawReqCode, "LRawReq"%string);
         (LRawIndCode, "LRawInd"%string);
         (LRawConCode, "LRawCon"%string)])
  \/ (registered code = false
      /\ MessageCode_String code = HexString.of_N (Byte.to_N code)).
Proof.
  destruct code;
    first [ right; split; reflexivity
          | left; split; [reflexivity|]; cbn [In]; auto 10 ].
Qed.

(** ** The frame functions *)
Section FrameProperties.

Context {P : Peers}.

Lemma select_body_unregistered (code : MessageCode) :
  registered code = false ->
  select_body code = Message_Unsupported (mkUnsupportedMessage code nil_slice).
Proof. destruct code; intros H; first [discriminate H | reflexivity]. Qed.

Lemma select_body_LBusmonInd :
  select_body LBusmonIndCode = Message_LBusmonInd nil_slice.
Proof. reflexivity. Qed.

(** [Unpack] once the header byte is there: the rest is handed to the body
    selected by the code. *)
Lemma Unpack_header (data : slice) (code : byte) (rest : list byte)
      (message : option Message) :
  elems data = code :: rest ->
  Unpack data message =
    (r <- Message_Unpack (select_body code) (mkSlice rest (spare data)) ;;
     let '(body', m, err) := r in
     Done (match err with
           | None => Some body'
           | Some _ => message
           end, 1 + m, err)).
Proof.
  intros Hdata. unfold Unpack, util.Unpack_uint8. rewrite Hdata.
  rewrite slice_from_visible by (unfold len; rewrite Hdata; simpl; lia).
  rewrite Hdata. reflexivity.
Qed.

(** [Pack] of a body that copies a byte run into the buffer. *)
Lemma PackSome_byte_run (buffer : slice) (b : byte) (run : slice) :
  len buffer = 1 + len run ->
  (buffer1 <- set_index buffer 0 b ;;
   rest <- slice_from buffer1 1 ;;
   rest' <- Done (fst (copy rest run)) ;;
   Done (store_back buffer1 1 rest'))
  = Done (mkSlice (b :: elems run) (spare buffer)).
Proof.
  intros Hlen.
  rewrite set_index_head by lia. cbn [bind].
  rewrite slice_from_visible
    by (unfold len in *; simpl; destruct (elems buffer); simpl in *; lia).
  cbn [bind elems spare skipn].
  rewrite copy_exact
    by (unfold len in *; cbn [elems]; destruct (elems buffer); simpl in *; lia).
  reflexivity.
Qed.

(** C2. A frame of at least one byte whose first byte is not a registered
    code decodes to an [UnsupportedMessage] holding that byte as [Code] and
    the remaining bytes as [Data], and all bytes are consumed; [Pack] of that
    message into a buffer of [Size] bytes gives the bytes of the frame. *)
Theorem Unpack_unregistered_fidelity
        (bytes buffer : slice) (code : byte) (rest : list byte)
        (message : option Message) :
  elems bytes = code :: rest ->
  registered code = false ->
  exists body : UnsupportedMessage,
    Unpack bytes message = Done (Some (Message_Unsupported body), len bytes, None)
    /\ Code body = code
    /\ elems (Data body) = rest
    /\ Size (Message_Unsupported body) = len bytes
    /\ (len buffer = Size (Message_Unsupported body) ->
        exists buffer' : slice,
          Pack buffer (Message_Unsupported body) = Done buffer'
          /\ elems buffer' = elems bytes).
Proof.
  intros Hbytes Hreg.
  exists (mkUnsupportedMessage code (of_bytes rest)).
  assert (Hlen : len bytes = 1 + List.length rest)
    by (unfold len; rewrite Hbytes; reflexivity).
  split.
  - rewrite Unpack_header with (code := code) (rest := rest) by assumption.
    rewrite select_body_unregistered by assumption.
    cbn [Message_Unpack].
    rewrite UnsupportedMessage_Unpack_fresh by apply nil_slice_fresh.
    cbn [bind Code elems]. rewrite Hlen. reflexivity.
  - repeat split; [exact (eq_sym Hlen)|].
    intros Hbuf. eexists. split.
    + unfold Pack, util.PackSome.
      cbn [util.Pack Message_Packable Message_Pack Message_MessageCode].
      unfold UnsupportedMessage_Pack, UnsupportedMessage_MessageCode.
      cbn [Code Data].
      apply PackSome_byte_run. exact Hbuf.
    + cbn [elems]. now rewrite Hbytes.
Qed.

(** C6. Once the header byte has been read, [Unpack] returns what the
    selected body's [Unpack] returns: an error of the body is returned as it
    is and the caller's message keeps its previous value; the message is
    set, to the filled body, exactly when the body returns no error. *)
Theorem Unpack_propagates_body_error
        (data view : slice) (code : byte)
        (message : option Message) (body' : Message) (m : nat)
        (err : option error) :
  hd_error (elems data) = Some code ->
  slice_from data 1 = Done view ->
  Message_Unpack (select_body code) view = Done (body', m, err) ->
  (forall e : error,
      err = Some e -> Unpack data message = Done (message, 1 + m, Some e))
  /\ (err = None -> Unpack data message = Done (Some body', 1 + m, None)).
Proof.
  intros Hhd Hview Hbody.
  destruct (elems data) as [|c rest] eqn:Hdata; [discriminate Hhd|].
  injection Hhd as ->.
  rewrite slice_from_visible in Hview
    by (unfold len; rewrite Hdata; simpl; lia).
  rewrite Hdata in Hview. injection Hview as <-.
  cbn [skipn] in Hbody.
  rewrite Unpack_header with (code := code) (rest := rest) by assumption.
  rewrite Hbody. cbn [bind].
  split.
  - intros e ->. reflexivity.
  - intros ->. reflexivity.
Qed.

(** The bus-monitor case of the round trip: [Pack] into a buffer of [Size]
    bytes followed by [Unpack] of that buffer gives a bus-monitor message
    with the same code and the same bytes, and consumes the whole buffer. *)
Theorem Pack_Unpack_LBusmonInd
        (lbm : LBusmonInd) (buffer : slice) (message : option Message) :
  len buffer = Size (Message_LBusmonInd lbm) ->
  exists (buffer' : slice) (lbm' : LBusmonInd),
    Pack buffer (Message_LBusmonInd lbm) = Done buffer'
    /\ elems buffer' = LBusmonIndCode :: elems lbm
    /\ Unpack buffer' message
       = Done (Some (Message_LBusmonInd lbm'), Size (Message_LBusmonInd lbm), None)
    /\ Message_MessageCode (Message_LBusmonInd lbm')
       = Message_MessageCode (Message_LBusmonInd lbm)
    /\ elems lbm' = elems lbm.
Proof.
  intros Hbuf.
  exists (mkSlice (LBusmonIndCode :: elems lbm) (spare buffer)),
         (of_bytes (elems lbm)).
  split.
  - unfold Pack, util.PackSome.
    cbn [util.Pack Message_Packable Message_Pack Message_MessageCode].
    unfold LBusmonInd_Pack, LBusmonInd_MessageCode.
    apply PackSome_byte_run. exact Hbuf.
  - split; [reflexivity|]. split; [|split; reflexivity].
    erewrite Unpack_header by reflexivity.
    rewrite select_body_LBusmonInd. cbn [Message_Unpack].
    rewrite LBusmonInd_Unpack_fresh by apply nil_slice_fresh.
    reflexivity.
Qed.

(** The frame functions add nothing that a body could lose: whenever a body
    packs into the remainder of the buffer and the zero body selected by its
    code unpacks that remainder, the frame goes through [Pack] and
    [Unpack]. This covers the bodies declared outside this file. *)
Lemma Pack_Unpack_any_body
      (m m' : Message) (buffer view' : slice) (message : option Message) :
  1 <= len buffer ->
  Message_Pack m (mkSlice (tl (elems buffer)) (spare buffer)) = Done view' ->
  Message_Unpack (select_body (Message_MessageCode m)) view'
  = Done (m', len view', None) ->
  exists buffer' : slice,
    Pack buffer m = Done buffer'
    /\ Unpack buffer' message = Done (Some m', 1 + len view', None).
Proof.
  intros Hbuf Hpack Hunpack.
  eexists. split.
  - unfold Pack, util.PackSome.
    rewrite set_index_head by assumption. cbn [bind].
    rewrite slice_from_visible by (unfold len; simpl; lia).
    cbn [bind elems spare skipn util.Pack Message_Packable].
    rewrite Hpack. reflexivity.
  - erewrite Unpack_header by reflexivity.
    cbn [store_back spare].
    destruct view' as [velems vspare]. cbn [elems spare] in *.
    rewrite Hunpack. reflexivity.
Qed.

Lemma select_body_peer_code (k : peer) :
  select_body (peer_code k) = Message_peer k (peer_zero k).
Proof. destruct k; reflexivity. Qed.

(** C7. For every message value of a registered variant (a bus-monitor
    message, or one of the six bodies declared outside this file, provided
    each of these reports the code of its variant and comes back from its own
    [Pack] followed by its own [Unpack] on a zero value), and for a raw
    message whose code is not registered: [Pack] into a buffer of [Size]
    bytes followed by [Unpack] of that buffer yields a message of the same
    variant with the same code and the same payload, and consumes the whole
    buffer. *)
Theorem Pack_Unpack_roundtrip
        (m : Message) (buffer : slice) (message : option Message) :
  (forall body : UnsupportedMessage,
      m = Message_Unsupported body -> registered (Code body) = false) ->
  (forall (k : peer) (b : peer_body k), peer_MessageCode k b = peer_code k) ->
  (forall (k : peer) (b : peer_body k) (view : slice),
      len view = peer_Size k b ->
      exists view' : slice,
        peer_Pack k b view = Done view'
        /\ peer_Unpack k (peer_zero k) view' = Done (b, peer_Size k b, None)) ->
  len buffer = Size m ->
  exists (buffer' : slice) (m' : Message),
    Pack buffer m = Done buffer'
    /\ Unpack buffer' message = Done (Some m', Size m, None)
    /\ Message_MessageCode m' = Message_MessageCode m
    /\ match m, m' with
       | Message_LBusmonInd lbm, Message_LBusmonInd lbm' =>
           elems lbm' = elems lbm
       | Message_Unsupported body, Message_Unsupported body' =>
           Code body' = Code body /\ elems (Data body') = elems (Data body)
       | Message_peer _ _, _ => m' = m
       | _, _ => False
       end.
Proof.
  intros Hvalid Hcode Hrt Hbuf.
  destruct m as [lbm|body|k b].
  - destruct (@Pack_Unpack_LBusmonInd lbm buffer message Hbuf)
      as (buffer' & lbm' & Hpack & _ & Hunpack & Hc & He).
    exists buffer', (Message_LBusmonInd lbm'). repeat split; assumption.
  - pose proof (Hvalid body eq_refl) as Hreg.
    exists (mkSlice (Code body :: elems (Data body)) (spare buffer)),
           (Message_Unsupported
              (mkUnsupportedMessage (Code body) (of_bytes (elems (Data body))))).
    split.
    + unfold Pack, util.PackSome.
      cbn [util.Pack Message_Packable Message_Pack Message_MessageCode].
      unfold UnsupportedMessage_Pack, UnsupportedMessage_MessageCode.
      apply PackSome_byte_run. exact Hbuf.
    + split; [|repeat split].
      rewrite Unpack_header with (code := Code body) (rest := elems (Data body))
        by reflexivity.
      rewrite select_body_unregistered by assumption. cbn [Message_Unpack].
      rewrite UnsupportedMessage_Unpack_fresh by apply nil_slice_fresh.
      reflexivity.
  - assert (Hlen : 1 <= len buffer) by (rewrite Hbuf; unfold Size; lia).
    destruct (Hrt k b (mkSlice (tl (elems buffer)) (spare buffer)))
      as (view' & Hpack & Hunpack).
    { unfold Size in Hbuf. cbn [util.Size Message_Packable Message_Size] in Hbuf.
      unfold len in *. cbn [elems].
      destruct (elems buffer); simpl in *; lia. }
    exists (mkSlice (peer_code k :: elems view') (spare view')),
           (Message_peer k b).
    split.
    + unfold Pack, util.PackSome.
      cbn [Message_MessageCode]. rewrite Hcode.
      rewrite set_index_head by assumption. cbn [bind].
      rewrite slice_from_visible by (unfold len; simpl; lia).
      cbn [bind elems spare skipn util.Pack Message_Packable Message_Pack].
      rewrite Hpack. reflexivity.
    + split; [|split; reflexivity].
      rewrite Unpack_header with (code := peer_code k) (rest := elems view')
        by reflexivity.
      rewrite select_body_peer_code. cbn [Message_Unpack spare].
      destruct view' as [velems vspare]. cbn [elems spare] in *.
      rewrite Hunpack. reflexivity.
Qed.

(** C9. [UnsupportedMessage.Unpack] and [LBusmonInd.Unpack] return a nil
    error on every input, the empty one included; so [Unpack] of a frame of
    at least one byte whose code is the bus-monitor code or is not
    registered returns a message and a nil error. *)
Theorem fallback_and_monitor_Unpack_succeed :
  (forall (body : UnsupportedMessage) (data : slice),
      snd (UnsupportedMessage_Unpack body data) = None)
  /\ (forall (lbm : LBusmonInd) (data : slice),
         snd (LBusmonInd_Unpack lbm data) = None)
  /\ (forall (data : slice) (code : byte) (message : option Message),
         1 <= len data ->
         hd_error (elems data) = Some code ->
         code = LBusmonIndCode \/ registered code = false ->
         exists body : Message,
           Unpack data message = Done (Some body, len data, None)).
Proof.
  split; [|split].
  - intros body data. unfold UnsupportedMessage_Unpack.
    now destruct (copy _ data).
  - intros lbm data. unfold LBusmonInd_Unpack.
    now destruct (copy _ data).
  - intros data code message _ Hhd Hcode.
    destruct (elems data) as [|c rest] eqn:Hdata; [discriminate Hhd|].
    injection Hhd as ->.
    assert (Hlen : len data = 1 + List.length rest)
      by (unfold len; rewrite Hdata; reflexivity).
    rewrite Unpack_header with (code := code) (rest := rest) by assumption.
    rewrite Hlen.
    destruct Hcode as [->|Hreg].
    + rewrite select_body_LBusmonInd. cbn [Message_Unpack].
      rewrite LBusmonInd_Unpack_fresh by apply nil_slice_fresh.
      eexists. reflexivity.
    + rewrite select_body_unregistered by assumption. cbn [Message_Unpack].
      rewrite UnsupportedMessage_Unpack_fresh by apply nil_slice_fresh.
      eexists. reflexivity.
Qed.

End FrameProperties.

(** ** The theorems at concrete inputs *)

#[local] Existing Instance byte_run_peers.

Lemma Unpack_unregistered_fidelity_witness :
  registered x77 = false
  /\ exists body : UnsupportedMessage,
      Unpack (of_bytes [x77; x01; x02]) None
      = Done (Some (Message_Unsupported body), 3, None)
      /\ Code body = x77
      /\ elems (Data body) = [x01; x02]
      /\ Size (Message_Unsupported body) = 3
      /\ (len (make 3) = Size (Message_Unsupported body) ->
          exists buffer' : slice,
            Pack (make 3) (Message_Unsupported body) = Done buffer'
            /\ elems buffer' = [x77; x01; x02]).
Proof.
  split; [reflexivity|].
  apply (@Unpack_unregistered_fidelity byte_run_peers
           (of_bytes [x77; x01; x02]) (make 3) x77 [x01; x02] None);
    reflexivity.
Defined.

Lemma Unpack_propagates_body_error_witness :
  let previous := Some (Message_LBusmonInd (of_bytes [x05])) in
  (forall e : error,
      Some ErrUnexpectedEOF = Some e ->
      Unpack (of_bytes [x11]) previous = Done (previous, 1 + 0, Some e))
  /\ (Some ErrUnexpectedEOF = None ->
      Unpack (of_bytes [x11]) previous
      = Done (Some (Message_peer K_LDataReq (peer_zero K_LDataReq)), 1 + 0, None)).
Proof.
  apply (@Unpack_propagates_body_error byte_run_peers
           (of_bytes [x11]) (of_bytes []) x11
           (Some (Message_LBusmonInd (of_bytes [x05])))
           (Message_peer K_LDataReq (peer_zero K_LDataReq)) 0 (Some ErrUnexpectedEOF));
    reflexivity.
Defined.

Lemma Pack_Unpack_LBusmonInd_witness :
  exists (buffer' : slice) (lbm' : LBusmonInd),
    Pack (make 4) (Message_LBusmonInd (of_bytes [x01; x02; x03]))
    = Done buffer'
    /\ elems buffer' = LBusmonIndCode :: [x01; x02; x03]
    /\ Unpack buffer' None = Done (Some (Message_LBusmonInd lbm'), 4, None)
    /\ Message_MessageCode (Message_LBusmonInd lbm')
       = Message_MessageCode (Message_LBusmonInd (of_bytes [x01; x02; x03]))
    /\ elems lbm' = [x01; x02; x03].
Proof.
  apply (@Pack_Unpack_LBusmonInd byte_run_peers
           (of_bytes [x01; x02; x03]) (make 4) None).
  reflexivity.
Defined.

(** The plain byte sequences of [plain_peers] come back from their own
    [Pack] followed by their own [Unpack]. *)
Lemma plain_peers_round_trip
      (k : peer) (b : @peer_body plain_peers k) (view : slice) :
  len view = @peer_Size plain_peers k b ->
  exists view' : slice,
    @peer_Pack plain_peers k b view = Done view'
    /\ @peer_Unpack plain_peers k (@peer_zero plain_peers k) view'
       = Done (b, @peer_Size plain_peers k b, None).
Proof.
  intros Hlen. cbn [peer_Size peer_Pack peer_Unpack peer_zero plain_peers] in *.
  eexists. split; [reflexivity|].
  rewrite copy_exact by (rewrite len_of_bytes; exact Hlen).
  reflexivity.
Qed.

Lemma Pack_Unpack_roundtrip_witness :
  let m : @Message plain_peers :=
    @Message_peer plain_peers K_LDataCon
                  ([x01; x02] : @peer_body plain_peers K_LDataCon) in
  exists (buffer' : slice) (m' : @Message plain_peers),
    @Pack plain_peers (make 3) m = Done buffer'
    /\ @Unpack plain_peers buffer' None = Done (Some m', @Size plain_peers m, None)
    /\ Message_MessageCode m' = Message_MessageCode m
    /\ match m, m' with
       | Message_LBusmonInd lbm, Message_LBusmonInd lbm' =>
           elems lbm' = elems lbm
       | Message_Unsupported body, Message_Unsupported body' =>
           Code body' = Code body /\ elems (Data body') = elems (Data body)
       | Message_peer _ _, _ => m' = m
       | _, _ => False
       end.
Proof.
  intros m.
  apply (@Pack_Unpack_roundtrip plain_peers m (make 3) None).
  - intros body H. discriminate H.
  - intros k b. reflexivity.
  - apply plain_peers_round_trip.
  - reflexivity.
Defined.

Lemma fallback_and_monitor_Unpack_succeed_witness :
  (exists body : Message,
      Unpack (of_bytes [x2b]) None = Done (Some body, 1, None))
  /\ (exists body : Message,
         Unpack (of_bytes [x00; x09]) None = Done (Some body, 2, None)).
Proof.
  destruct (@fallback_and_monitor_Unpack_succeed byte_run_peers) as [_ [_ H]].
  split.
  - apply (H (of_bytes [x2b]) x2b None); [vm_compute; lia | reflexivity | left; reflexivity].
  - apply (H (of_bytes [x00; x09]) x00 None); [vm_compute; lia | reflexivity | right; reflexivity].
Defined.

(** * Further properties of the code *)

(** ** Info: more on [Size], [Pack] and [Unpack] *)

Lemma uint8_of_to_nat (b : byte) : uint8_of_nat (Byte.to_nat b) = b.
Proof.
  unfold uint8_of_nat.
  rewrite Nat.mod_small by (pose proof (Byte.to_nat_bounded b); lia).
  now rewrite Byte.of_to_nat.
Qed.

Lemma firstn_app_exact {A : Type} (n : nat) (l1 l2 : list A) :
  List.length l1 = n -> firstn n (l1 ++ l2) = l1.
Proof.
  intros <-. rewrite firstn_app, Nat.sub_diag, firstn_O, app_nil_r.
  apply firstn_all.
Qed.

(** [Info.Pack] on any buffer that is not empty: the length byte is the
    clamped length whatever the room behind it. *)
Lemma Info_Pack_nonempty_buffer (info : Info) (buffer : slice) :
  1 <= len buffer ->
  Info_Pack info buffer =
    Done (mkSlice
            (uint8_of_nat (Nat.min 255 (len info))
               :: firstn (Nat.min (len buffer - 1) (Nat.min 255 (len info))) (elems info)
               ++ skipn (S (Nat.min (len buffer - 1) (Nat.min 255 (len info))))
                    (elems buffer))
            (spare buffer)).
Proof.
  intros Hbuf.
  unfold Info_Pack. rewrite Info_Pack_length_byte.
  set (m := Nat.min 255 (len info)) in *.
  assert (Hm : m <= 255) by (subst m; lia).
  assert (Hm' : m <= len info) by (subst m; lia).
  rewrite set_index_head by lia. cbn [bind index elems nth_error].
  rewrite slice_from_visible
    by (unfold len in *; simpl; destruct (elems buffer); simpl in *; lia).
  cbn [bind elems spare skipn].
  rewrite uint8_of_nat_small by assumption.
  rewrite slice_to_visible by assumption.
  cbn [bind]. unfold copy, store_back, len.
  cbn [fst elems spare firstn app].
  rewrite firstn_length_le by assumption.
  replace (List.length (tl (elems buffer))) with (List.length (elems buffer) - 1)
    by (destruct (elems buffer); simpl; lia).
  rewrite firstn_firstn, skipn_tl.
  replace (Nat.min (Nat.min (List.length (elems buffer) - 1) m) m)
    with (Nat.min (List.length (elems buffer) - 1) m) by lia.
  reflexivity.
Qed.

(** [Info.Pack] followed by [Info.Unpack]: in a buffer of at least [Size()]
    bytes the segment decodes to the first min(255, len(info)) bytes of the
    sequence and [Size()] bytes are consumed, whatever the receiver held;
    a sequence of at most 255 bytes comes back whole. *)
Theorem Info_Pack_Unpack (info receiver : Info) (buffer : slice) :
  Info_Size info <= len buffer ->
  exists (buffer' : slice) (info' : Info),
    Info_Pack info buffer = Done buffer'
    /\ Info_Unpack receiver buffer' = Done (info', Info_Size info, None)
    /\ elems info' = firstn (Nat.min 255 (len info)) (elems info)
    /\ (len info <= 255 -> elems info' = elems info).
Proof.
  intros Hsize.
  set (m := Nat.min 255 (len info)).
  assert (Hm : List.length (firstn m (elems info)) = m)
    by (apply firstn_length_le; subst m; unfold len; lia).
  exists (mkSlice (uint8_of_nat m :: firstn m (elems info)
                     ++ skipn (S m) (elems buffer)) (spare buffer)),
         (of_bytes (firstn m (elems info))).
  split; [now apply Info_Pack_result|].
  split.
  - erewrite Info_Unpack_complete; [|reflexivity|].
    + rewrite uint8_of_nat_small by (subst m; lia).
      rewrite firstn_app_exact by assumption.
      rewrite Info_Size_min. reflexivity.
    + rewrite uint8_of_nat_small by (subst m; lia).
      rewrite length_app. lia.
  - split; [reflexivity|].
    intros Hle. cbn [elems of_bytes].
    apply firstn_all2. subst m. unfold len in *. lia.
Qed.

Lemma Info_Pack_Unpack_witness :
  Info_Size (of_bytes [x0a; x0b]) <= len (make 5)
  /\ exists (buffer' : slice) (info' : Info),
      Info_Pack (of_bytes [x0a; x0b]) (make 5) = Done buffer'
      /\ Info_Unpack (of_bytes [x01]) buffer'
         = Done (info', Info_Size (of_bytes [x0a; x0b]), None)
      /\ elems info'
         = firstn (Nat.min 255 (len (of_bytes [x0a; x0b]))) (elems (of_bytes [x0a; x0b]))
      /\ (len (of_bytes [x0a; x0b]) <= 255 -> elems info' = elems (of_bytes [x0a; x0b])).
Proof.
  split.
  - vm_compute. lia.
  - apply (@Info_Pack_Unpack (of_bytes [x0a; x0b]) (of_bytes [x01]) (make 5)).
    vm_compute. lia.
Defined.

(** [Info.Unpack] followed by [Info.Pack]: when the input holds the announced
    bytes, the number of bytes consumed is the [Size()] of the decoded value,
    and packing that value into a buffer of that size gives back the bytes
    that were consumed. *)
Theorem Info_Unpack_Pack
        (receiver : Info) (data buffer : slice) (l : byte) (rest : list byte) :
  elems data = l :: rest ->
  Byte.to_nat l <= List.length rest ->
  len buffer = 1 + Byte.to_nat l ->
  exists (info' : Info) (buffer' : slice),
    Info_Unpack receiver data = Done (info', 1 + Byte.to_nat l, None)
    /\ Info_Size info' = 1 + Byte.to_nat l
    /\ Info_Pack info' buffer = Done buffer'
    /\ elems buffer' = firstn (1 + Byte.to_nat l) (elems data).
Proof.
  intros Hdata Hlen Hbuf.
  pose proof (Byte.to_nat_bounded l) as Hl.
  assert (Hf : List.length (firstn (Byte.to_nat l) rest) = Byte.to_nat l)
    by (now apply firstn_length_le).
  exists (of_bytes (firstn (Byte.to_nat l) rest)),
         (mkSlice (l :: firstn (Byte.to_nat l) rest) (spare buffer)).
  split; [now apply Info_Unpack_complete|].
  assert (Hsize : Info_Size (of_bytes (firstn (Byte.to_nat l) rest))
                  = 1 + Byte.to_nat l).
  { rewrite Info_Size_min, len_of_bytes, Hf. lia. }
  split; [exact Hsize|].
  split.
  - rewrite Info_Pack_result by (rewrite Hsize; lia).
    rewrite len_of_bytes, Hf, Nat.min_r by lia.
    rewrite uint8_of_to_nat. cbn [elems of_bytes].
    rewrite firstn_all2 by lia.
    rewrite skipn_all2 by (unfold len in Hbuf; lia).
    now rewrite app_nil_r.
  - cbn [elems]. rewrite Hdata. reflexivity.
Qed.

Lemma Info_Unpack_Pack_witness :
  exists (info' : Info) (buffer' : slice),
    Info_Unpack nil_slice (of_bytes [x02; x0a; x0b; x0c])
    = Done (info', 1 + Byte.to_nat x02, None)
    /\ Info_Size info' = 1 + Byte.to_nat x02
    /\ Info_Pack info' (make 3) = Done buffer'
    /\ elems buffer' = firstn (1 + Byte.to_nat x02) (elems (of_bytes [x02; x0a; x0b; x0c])).
Proof.
  apply (@Info_Unpack_Pack nil_slice (of_bytes [x02; x0a; x0b; x0c]) (make 3)
                           x02 [x0a; x0b; x0c]).
  - reflexivity.
  - vm_compute. lia.
  - reflexivity.
Defined.

(** [Info.Unpack] is self-delimiting: it returns the announced bytes and
    the count of the segment, whatever follows the segment in the input,
    whatever lies in the capacity of the input and whatever the receiver
    held. *)
Theorem Info_Unpack_self_delimiting
        (receiver : Info) (data : slice) (l : byte) (body trailing : list byte) :
  elems data = l :: body ++ trailing ->
  List.length body = Byte.to_nat l ->
  Info_Unpack receiver data = Done (of_bytes body, 1 + List.length body, None).
Proof.
  intros Hdata Hbody.
  rewrite Info_Unpack_complete with (l := l) (rest := body ++ trailing)
    by (try assumption; rewrite length_app; lia).
  rewrite <- Hbody. now rewrite firstn_app_exact by reflexivity.
Qed.

Lemma Info_Unpack_self_delimiting_witness :
  Info_Unpack (of_bytes [x07]) (mkSlice [x02; x0a; x0b; x0c; x0d] [x0e])
  = Done (of_bytes [x0a; x0b], 1 + List.length [x0a; x0b], None).
Proof.
  apply (@Info_Unpack_self_delimiting (of_bytes [x07])
           (mkSlice [x02; x0a; x0b; x0c; x0d] [x0e]) x02 [x0a; x0b] [x0c; x0d]);
    reflexivity.
Defined.

(** [Info.Unpack] on an input without a length byte returns an error, reports
    no byte consumed and leaves the receiver as it was. *)
Theorem Info_Unpack_empty_input (receiver : Info) (data : slice) :
  len data = 0 ->
  exists e : error, Info_Unpack receiver data = Done (receiver, 0, Some e).
Proof.
  intros Hlen. unfold Info_Unpack, util.Unpack_uint8.
  unfold len in Hlen. destruct (elems data); [|discriminate Hlen].
  eexists. reflexivity.
Qed.

Lemma Info_Unpack_empty_input_witness :
  exists e : error,
    Info_Unpack (of_bytes [x01; x02]) (mkSlice [] [x03])
    = Done (of_bytes [x01; x02], 0, Some e).
Proof.
  apply (@Info_Unpack_empty_input (of_bytes [x01; x02]) (mkSlice [] [x03])).
  reflexivity.
Defined.

(** [Info.Pack] panics on an empty buffer and on no other: in a buffer that
    is too short for the data it still stores the clamped length, followed by
    as many bytes as fit, and keeps the length of the buffer. *)
Theorem Info_Pack_short_buffer (info : Info) (buffer : slice) :
  (len buffer = 0 -> Info_Pack info buffer = Panics IndexOutOfRange)
  /\ (1 <= len buffer ->
      exists buffer' : slice,
        Info_Pack info buffer = Done buffer'
        /\ len buffer' = len buffer
        /\ hd_error (elems buffer') = Some (uint8_of_nat (Nat.min 255 (len info)))
        /\ firstn (Nat.min (len buffer - 1) (Nat.min 255 (len info))) (tl (elems buffer'))
           = firstn (Nat.min (len buffer - 1) (Nat.min 255 (len info))) (elems info)).
Proof.
  split.
  - intros Hlen. unfold Info_Pack, set_index. rewrite Hlen.
    now destruct (255 <? len info).
  - intros Hlen. eexists. split; [now apply Info_Pack_nonempty_buffer|].
    set (k := Nat.min (len buffer - 1) (Nat.min 255 (len info))).
    assert (Hk : List.length (firstn k (elems info)) = k)
      by (apply firstn_length_le; subst k; unfold len; lia).
    unfold len in *. cbn [elems hd_error tl List.length].
    split; [|split].
    + rewrite length_app, Hk, length_skipn. subst k. lia.
    + reflexivity.
    + now rewrite firstn_app_exact by assumption.
Qed.

(** A buffer that is shorter than [Size()] and has no spare capacity takes
    the segment without complaint, and the segment it then holds cannot be
    decoded: [Info.Unpack] panics on it. *)
Theorem Info_Pack_short_buffer_undecodable (info receiver : Info) (buffer : slice) :
  1 <= len buffer ->
  len buffer < Info_Size info ->
  cap buffer = len buffer ->
  exists buffer' : slice,
    Info_Pack info buffer = Done buffer'
    /\ Info_Unpack receiver buffer' = Panics SliceBoundsOutOfRange.
Proof.
  intros Hlen Hshort Hcap.
  rewrite Info_Size_min in Hshort.
  eexists. split; [now apply Info_Pack_nonempty_buffer|].
  set (m := Nat.min 255 (len info)) in *.
  set (k := Nat.min (len buffer - 1) m).
  assert (Hk : List.length (firstn k (elems info)) = k)
    by (apply firstn_length_le; subst k m; unfold len; lia).
  assert (Hm : Byte.to_nat (uint8_of_nat m) = m)
    by (apply uint8_of_nat_small; subst m; lia).
  erewrite Info_Unpack_short; [|reflexivity|].
  - rewrite Hm. unfold cap in *. cbn [elems spare].
    cbn [List.length]. rewrite length_app, Hk, length_skipn.
    destruct (Nat.leb_spec (1 + m)
                (S (k + (List.length (elems buffer) - S k))
                 + List.length (spare buffer))) as [H|H]; [|reflexivity].
    unfold len in *. subst k. lia.
  - rewrite Hm, length_app, Hk, length_skipn. unfold len in *. subst k. lia.
Qed.

Lemma Info_Pack_short_buffer_undecodable_witness :
  exists buffer' : slice,
    Info_Pack (of_bytes [x0a; x0b; x0c]) (make 2) = Done buffer'
    /\ Info_Unpack nil_slice buffer' = Panics SliceBoundsOutOfRange.
Proof.
  apply (@Info_Pack_short_buffer_undecodable (of_bytes [x0a; x0b; x0c]) nil_slice (make 2));
    vm_compute; lia.
Defined.

Lemma Info_Pack_short_buffer_witness :
  exists buffer' : slice,
    Info_Pack (of_bytes [x0a; x0b; x0c]) (make 2) = Done buffer'
    /\ len buffer' = len (make 2)
    /\ hd_error (elems buffer')
       = Some (uint8_of_nat (Nat.min 255 (len (of_bytes [x0a; x0b; x0c]))))
    /\ firstn (Nat.min (len (make 2) - 1) (Nat.min 255 (len (of_bytes [x0a; x0b; x0c]))))
         (tl (elems buffer'))
       = firstn (Nat.min (len (make 2) - 1) (Nat.min 255 (len (of_bytes [x0a; x0b; x0c]))))
           (elems (of_bytes [x0a; x0b; x0c])).
Proof.
  apply (proj2 (@Info_Pack_short_buffer (of_bytes [x0a; x0b; x0c]) (make 2))).
  vm_compute. lia.
Defined.

(** [Info.WriteTo] into an appending sink. *)
Lemma Info_WriteTo_Buffer_result (info : Info) (w : Buffer) :
  Info_WriteTo info w
  = Done (w ++ uint8_of_nat (len info) :: firstn (len info mod 256) (elems info),
          1 + len info mod 256, None).
Proof.
  unfold Info_WriteTo. rewrite to_nat_uint8_of_nat.
  assert (Hle : len info mod 256 <= len info) by (apply Nat.Div0.mod_le).
  rewrite slice_to_visible by assumption.
  cbn [bind]. unfold encoding.WriteSome. cbn [Write Buffer_Writer elems].
  rewrite <- app_assoc. cbn [app List.length].
  now rewrite firstn_length_le by (exact Hle).
Qed.

(** [Info.WriteTo] and [Info.Pack] give the same bytes exactly when the
    sequence has at most 255 bytes or its length is 255 modulo 256; for every
    other length the stream and the buffer disagree. *)
Theorem Info_WriteTo_agrees_with_Pack (info : Info) (buffer : slice) :
  len buffer = Info_Size info ->
  exists (buffer' : slice) (out : Buffer),
    Info_Pack info buffer = Done buffer'
    /\ Info_WriteTo info ([] : Buffer) = Done (out, 1 + len info mod 256, None)
    /\ (out = elems buffer' <-> len info <= 255 \/ len info mod 256 = 255).
Proof.
  intros Hbuf.
  exists (mkSlice (uint8_of_nat (Nat.min 255 (len info))
                     :: firstn (Nat.min 255 (len info)) (elems info)
                     ++ skipn (S (Nat.min 255 (len info))) (elems buffer))
                  (spare buffer)),
         (uint8_of_nat (len info) :: firstn (len info mod 256) (elems info)).
  split; [apply Info_Pack_result; lia|].
  split; [apply Info_WriteTo_Buffer_result|].
  rewrite Info_Size_min in Hbuf.
  cbn [elems].
  rewrite (skipn_all2 (n := S (Nat.min 255 (len info))))
    by (unfold len in *; lia).
  rewrite app_nil_r.
  pose proof (Nat.mod_upper_bound (len info) 256 ltac:(lia)) as Hmod.
  pose proof (Nat.Div0.mod_le (len info) 256) as Hmodle.
  split.
  - intros Heq. apply (f_equal (@List.length byte)) in Heq.
    cbn [List.length] in Heq.
    rewrite !firstn_length_le in Heq by (unfold len in *; lia).
    destruct (Nat.le_gt_cases (len info) 255) as [Hle|Hgt]; [now left|right].
    rewrite Nat.min_l in Heq by lia. lia.
  - intros [Hle|H255].
    + rewrite Nat.min_r by lia. now rewrite Nat.mod_small by lia.
    + destruct (Nat.le_gt_cases (len info) 255) as [Hle|Hgt].
      * rewrite Nat.min_r by lia. now rewrite Nat.mod_small by lia.
      * rewrite Nat.min_l by lia. rewrite H255.
        f_equal. unfold uint8_of_nat. now rewrite H255.
Qed.

Lemma Info_WriteTo_agrees_with_Pack_witness :
  exists (buffer' : slice) (out : Buffer),
    Info_Pack (of_bytes (repeat x01 300)) (make 256) = Done buffer'
    /\ Info_WriteTo (of_bytes (repeat x01 300)) ([] : Buffer)
       = Done (out, 1 + len (of_bytes (repeat x01 300)) mod 256, None)
    /\ (out = elems buffer'
        <-> len (of_bytes (repeat x01 300)) <= 255
            \/ len (of_bytes (repeat x01 300)) mod 256 = 255).
Proof.
  apply (@Info_WriteTo_agrees_with_Pack (of_bytes (repeat x01 300)) (make 256)).
  vm_compute. reflexivity.
Defined.

(** ** LBusmonInd and UnsupportedMessage: more on [Unpack], [Pack], [WriteTo] *)

(** [LBusmonInd.Unpack] for every receiver: all of the input is consumed, no
    error is returned, the receiver starts with the input, keeps what it held
    behind it, and its length is the larger of the two lengths. *)
Theorem LBusmonInd_Unpack_effect (lbm : LBusmonInd) (data : slice) :
  exists lbm' : LBusmonInd,
    LBusmonInd_Unpack lbm data = (lbm', len data, None)
    /\ firstn (len data) (elems lbm') = elems data
    /\ skipn (len data) (elems lbm') = skipn (len data) (elems lbm)
    /\ len lbm' = Nat.max (len lbm) (len data).
Proof.
  destruct (Nat.le_gt_cases (len data) (len lbm)) as [H|H].
  - rewrite LBusmonInd_Unpack_longer_receiver by assumption.
    eexists. split; [reflexivity|]. unfold len in *. cbn [elems].
    split; [now apply firstn_app_exact|]. split.
    + rewrite skipn_app, skipn_all, Nat.sub_diag. reflexivity.
    + rewrite length_app, length_skipn. lia.
  - rewrite LBusmonInd_Unpack_fresh by (left; assumption).
    eexists. split; [reflexivity|]. unfold len in *. cbn [elems of_bytes].
    split; [apply firstn_all|]. split.
    + rewrite skipn_all. symmetry. apply skipn_all2. lia.
    + lia.
Qed.

(** [UnsupportedMessage.Unpack] for every receiver: the same effect on
    [Data], and [Code] is left as it was. *)
Theorem UnsupportedMessage_Unpack_effect (body : UnsupportedMessage) (data : slice) :
  exists body' : UnsupportedMessage,
    UnsupportedMessage_Unpack body data = (body', len data, None)
    /\ Code body' = Code body
    /\ firstn (len data) (elems (Data body')) = elems data
    /\ skipn (len data) (elems (Data body')) = skipn (len data) (elems (Data body))
    /\ len (Data body') = Nat.max (len (Data body)) (len data).
Proof.
  destruct (Nat.le_gt_cases (len data) (len (Data body))) as [H|H].
  - unfold UnsupportedMessage_Unpack.
    destruct (Nat.ltb_spec (len (Data body)) (len data)); [lia|].
    rewrite copy_fits by assumption.
    eexists. split; [reflexivity|]. unfold len in *. cbn [Code Data elems].
    split; [reflexivity|].
    split; [now apply firstn_app_exact|]. split.
    + rewrite skipn_app, skipn_all, Nat.sub_diag. reflexivity.
    + rewrite length_app, length_skipn. lia.
  - rewrite UnsupportedMessage_Unpack_fresh by (left; assumption).
    eexists. split; [reflexivity|]. unfold len in *. cbn [Code Data elems of_bytes].
    split; [reflexivity|].
    split; [apply firstn_all|]. split.
    + rewrite skipn_all. symmetry. apply skipn_all2. lia.
    + lia.
Qed.

(** [LBusmonInd.WriteTo] sends an appending sink the bytes that
    [LBusmonInd.Pack] stores in a buffer of [Size()] bytes, and reports
    [Size()] bytes written. *)
Theorem LBusmonInd_WriteTo_matches_Pack
        (lbm : LBusmonInd) (buffer : slice) (w : Buffer) :
  len buffer = LBusmonInd_Size lbm ->
  exists buffer' : slice,
    LBusmonInd_Pack lbm buffer = Done buffer'
    /\ LBusmonInd_WriteTo lbm w = (w ++ elems buffer', LBusmonInd_Size lbm, None).
Proof.
  intros Hbuf. unfold LBusmonInd_Pack, LBusmonInd_WriteTo, LBusmonInd_Size in *.
  rewrite copy_exact by assumption.
  eexists. split; reflexivity.
Qed.

Lemma LBusmonInd_WriteTo_matches_Pack_witness :
  exists buffer' : slice,
    LBusmonInd_Pack (of_bytes [x01; x02]) (make 2) = Done buffer'
    /\ LBusmonInd_WriteTo (of_bytes [x01; x02]) ([x09] : Buffer)
       = ([x09] ++ elems buffer', LBusmonInd_Size (of_bytes [x01; x02]), None).
Proof.
  apply (@LBusmonInd_WriteTo_matches_Pack (of_bytes [x01; x02]) (make 2) [x09]).
  reflexivity.
Defined.

(** [UnsupportedMessage.WriteTo] sends an appending sink the bytes that
    [UnsupportedMessage.Pack] stores in a buffer of [Size()] bytes; neither
    of them emits [Code]. *)
Theorem UnsupportedMessage_WriteTo_matches_Pack
        (body : UnsupportedMessage) (buffer : slice) (w : Buffer) :
  len buffer = UnsupportedMessage_Size body ->
  exists buffer' : slice,
    UnsupportedMessage_Pack body buffer = Done buffer'
    /\ elems buffer' = elems (Data body)
    /\ UnsupportedMessage_WriteTo body w
       = (w ++ elems buffer', UnsupportedMessage_Size body, None).
Proof.
  intros Hbuf.
  unfold UnsupportedMessage_Pack, UnsupportedMessage_WriteTo,
    UnsupportedMessage_Size in *.
  rewrite copy_exact by assumption.
  eexists. repeat split; reflexivity.
Qed.

Lemma UnsupportedMessage_WriteTo_matches_Pack_witness :
  exists buffer' : slice,
    UnsupportedMessage_Pack (mkUnsupportedMessage x77 (of_bytes [x01; x02])) (make 2)
    = Done buffer'
    /\ elems buffer' = elems (Data (mkUnsupportedMessage x77 (of_bytes [x01; x02])))
    /\ UnsupportedMessage_WriteTo (mkUnsupportedMessage x77 (of_bytes [x01; x02]))
         ([x09] : Buffer)
       = ([x09] ++ elems buffer',
          UnsupportedMessage_Size (mkUnsupportedMessage x77 (of_bytes [x01; x02])), None).
Proof.
  apply (@UnsupportedMessage_WriteTo_matches_Pack
           (mkUnsupportedMessage x77 (of_bytes [x01; x02])) (make 2) [x09]).
  reflexivity.
Defined.

(** ** MessageCode: more on [String] *)

Lemma registered_cases (code : MessageCode) :
  registered code = true ->
  In code [LBusmonIndCode; LDataReqCode; LDataIndCode; LDataConCode;
           LRawReqCode; LRawIndCode; LRawConCode].
Proof.
  intros H. unfold registered in H.
  apply existsb_exists in H. destruct H as [c [Hin Heq]].
  apply Byte.byte_dec_bl in Heq. now subst c.
Qed.

Lemma MessageCode_String_registered_head (code : MessageCode) :
  registered code = true ->
  exists s : string, MessageCode_String code = String "L" s.
Proof.
  intros H. apply registered_cases in H. cbn [In] in H.
  repeat (destruct H as [<-|H]; [eexists; reflexivity|]).
  contradiction.
Qed.

Lemma MessageCode_String_unregistered (code : MessageCode) :
  registered code = false ->
  MessageCode_String code = HexString.of_N (Byte.to_N code).
Proof. destruct code; intros H; first [discriminate H | reflexivity]. Qed.

Lemma MessageCode_String_unregistered_head (code : MessageCode) :
  registered code = false ->
  exists s : string, MessageCode_String code = String "0" s.
Proof.
  destruct code; intros H; first [discriminate H | eexists; reflexivity].
Qed.

(** [String] tells the codes apart: two codes with the same rendering are
    the same code. *)
Theorem MessageCode_String_injective (code1 code2 : MessageCode) :
  MessageCode_String code1 = MessageCode_String code2 -> code1 = code2.
Proof.
  intros H.
  destruct (registered code1) eqn:R1, (registered code2) eqn:R2.
  - apply registered_cases in R1. apply registered_cases in R2.
    cbn [In] in R1, R2.
    repeat (destruct R1 as [<-|R1]; [|]); try contradiction;
      repeat (destruct R2 as [<-|R2]; [|]); try contradiction;
      first [reflexivity | discriminate H].
  - destruct (MessageCode_String_registered_head code1 R1) as [s1 Hs1].
    destruct (MessageCode_String_unregistered_head code2 R2) as [s2 Hs2].
    rewrite Hs1, Hs2 in H. discriminate H.
  - destruct (MessageCode_String_unregistered_head code1 R1) as [s1 Hs1].
    destruct (MessageCode_String_registered_head code2 R2) as [s2 Hs2].
    rewrite Hs1, Hs2 in H. discriminate H.
  - rewrite (MessageCode_String_unregistered code1 R1),
      (MessageCode_String_unregistered code2 R2) in H.
    apply (f_equal HexString.to_N) in H.
    rewrite !HexString.to_N_of_N in H.
    pose proof (Byte.of_to_N code1) as H1.
    rewrite H, Byte.of_to_N in H1. now injection H1.
Qed.

Lemma MessageCode_String_injective_witness : LRawConCode = x2f.
Proof.
  apply (@MessageCode_String_injective LRawConCode x2f). reflexivity.
Defined.

(** ** The frame functions: more on [Unpack], [Size] and [Pack] *)
Section MoreFrameProperties.

Context {P : Peers}.

Lemma select_body_registered (code : MessageCode) :
  registered code = true ->
  forall body : UnsupportedMessage,
    select_body (P := P) code <> Message_Unsupported body.
Proof.
  intros H. apply registered_cases in H. cbn [In] in H.
  repeat (destruct H as [<-|H]; [intros body; discriminate|]).
  contradiction.
Qed.

Lemma Unpack_LBusmonInd_frame (data : slice) (rest : list byte)
      (message : option Message) :
  elems data = LBusmonIndCode :: rest ->
  Unpack (P := P) data message
  = Done (Some (Message_LBusmonInd (of_bytes rest)), 1 + List.length rest, None).
Proof.
  intros Hdata.
  rewrite Unpack_header with (code := LBusmonIndCode) (rest := rest) by assumption.
  rewrite select_body_LBusmonInd. cbn [Message_Unpack].
  rewrite LBusmonInd_Unpack_fresh by apply nil_slice_fresh.
  reflexivity.
Qed.

Lemma Unpack_unregistered_frame (data : slice) (code : byte) (rest : list byte)
      (message : option Message) :
  elems data = code :: rest ->
  registered code = false ->
  Unpack (P := P) data message
  = Done (Some (Message_Unsupported (mkUnsupportedMessage code (of_bytes rest))),
          1 + List.length rest, None).
Proof.
  intros Hdata Hreg.
  rewrite Unpack_header with (code := code) (rest := rest) by assumption.
  rewrite select_body_unregistered by assumption. cbn [Message_Unpack].
  rewrite UnsupportedMessage_Unpack_fresh by apply nil_slice_fresh.
  reflexivity.
Qed.

(** [util.PackSome] with a body that copies a byte run, into any buffer
    that is not empty. *)
Lemma PackSome_byte_run_any (buffer : slice) (b : byte) (run : slice) :
  1 <= len buffer ->
  (buffer1 <- set_index buffer 0 b ;;
   rest <- slice_from buffer1 1 ;;
   rest' <- Done (fst (copy rest run)) ;;
   Done (store_back buffer1 1 rest'))
  = Done (mkSlice (firstn (len buffer) (b :: elems run)
                     ++ skipn (1 + len run) (elems buffer))
                  (spare buffer)).
Proof.
  intros Hlen.
  rewrite set_index_head by lia. cbn [bind].
  rewrite slice_from_visible
    by (unfold len in *; simpl; destruct (elems buffer); simpl in *; lia).
  cbn [bind elems spare skipn]. unfold copy, store_back, len in *.
  cbn [fst elems spare firstn app].
  destruct (elems buffer) as [|b0 tail]; [simpl in Hlen; lia|].
  cbn [tl List.length firstn skipn Nat.add]. f_equal. f_equal.
  destruct (Nat.le_gt_cases (List.length tail) (List.length (elems run))) as [H|H].
  - rewrite Nat.min_l by lia.
    rewrite skipn_all, (skipn_all2 (n := List.length (elems run))) by lia.
    reflexivity.
  - rewrite Nat.min_r by lia.
    now rewrite firstn_all, firstn_all2 by lia.
Qed.

(** [Unpack] on an input without a code byte returns an error, reports no
    byte consumed and leaves the caller's message as it was. *)
Theorem Unpack_empty_input (data : slice) (message : option Message) :
  len data = 0 ->
  exists e : error, Unpack (P := P) data message = Done (message, 0, Some e).
Proof.
  intros Hlen. unfold Unpack, util.Unpack_uint8.
  unfold len in Hlen. destruct (elems data); [|discriminate Hlen].
  eexists. reflexivity.
Qed.

(** The two switches agree: [Unpack] selects the raw body for exactly the
    codes that [String] renders as a number. *)
Theorem fallback_iff_String_numeric (code : MessageCode) :
  (exists body : UnsupportedMessage,
      select_body (P := P) code = Message_Unsupported body)
  <-> MessageCode_String code = fmt.Sprintf_sharp_x code.
Proof.
  destruct (registered code) eqn:R.
  - split.
    + intros [body Hbody]. now apply select_body_registered in Hbody.
    + intros H. exfalso.
      destruct (MessageCode_String_registered_head code R) as [s Hs].
      rewrite Hs in H. unfold fmt.Sprintf_sharp_x in H. discriminate H.
  - split.
    + intros _. destruct code; first [discriminate R | reflexivity].
    + intros _. eexists. now apply select_body_unregistered.
Qed.

(** [Unpack] followed by [Pack] on a bus-monitor frame: the frame decodes to
    a bus-monitor message holding the bytes behind the code, all bytes are
    consumed, that count is the [Size] of the message, and [Pack] into a
    buffer of that size gives the frame again. *)
Theorem Unpack_Pack_LBusmonInd
        (data buffer : slice) (rest : list byte) (message : option Message) :
  elems data = LBusmonIndCode :: rest ->
  len buffer = len data ->
  exists (lbm : LBusmonInd) (buffer' : slice),
    Unpack (P := P) data message = Done (Some (Message_LBusmonInd lbm), len data, None)
    /\ elems lbm = rest
    /\ Size (Message_LBusmonInd lbm) = len data
    /\ Pack buffer (Message_LBusmonInd lbm) = Done buffer'
    /\ elems buffer' = elems data.
Proof.
  intros Hdata Hbuf.
  assert (Hlen : len data = 1 + List.length rest)
    by (unfold len; rewrite Hdata; reflexivity).
  exists (of_bytes rest), (mkSlice (LBusmonIndCode :: rest) (spare buffer)).
  split; [rewrite Hlen; now apply Unpack_LBusmonInd_frame|].
  split; [reflexivity|].
  split; [now rewrite Hlen|].
  split; [|now rewrite Hdata].
  unfold Pack, util.PackSome.
  cbn [util.Pack Message_Packable Message_Pack Message_MessageCode].
  unfold LBusmonInd_Pack, LBusmonInd_MessageCode.
  apply PackSome_byte_run. rewrite Hbuf, Hlen. reflexivity.
Qed.

(** [Pack] followed by [Unpack] on a raw message whose code is not
    registered: the frame is the code followed by the data, and it decodes
    to a raw message with the same code and data. *)
Theorem Pack_Unpack_UnsupportedMessage
        (body : UnsupportedMessage) (buffer : slice) (message : option Message) :
  registered (Code body) = false ->
  len buffer = Size (P := P) (Message_Unsupported body) ->
  exists (buffer' : slice) (body' : UnsupportedMessage),
    Pack buffer (Message_Unsupported body) = Done buffer'
    /\ elems buffer' = Code body :: elems (Data body)
    /\ Unpack buffer' message
       = Done (Some (Message_Unsupported body'), Size (Message_Unsupported body), None)
    /\ Code body' = Code body
    /\ elems (Data body') = elems (Data body).
Proof.
  intros Hreg Hbuf.
  exists (mkSlice (Code body :: elems (Data body)) (spare buffer)),
         (mkUnsupportedMessage (Code body) (of_bytes (elems (Data body)))).
  split.
  - unfold Pack, util.PackSome.
    cbn [util.Pack Message_Packable Message_Pack Message_MessageCode].
    unfold UnsupportedMessage_Pack, UnsupportedMessage_MessageCode.
    apply PackSome_byte_run. exact Hbuf.
  - split; [reflexivity|]. split; [|split; reflexivity].
    rewrite Unpack_unregistered_frame
      with (code := Code body) (rest := elems (Data body))
      by (try reflexivity; assumption).
    reflexivity.
Qed.

(** A raw message that carries a registered code does not come back as a
    raw message: whatever [Unpack] returns for its frame, the caller's
    message (nil before the call) is not an [UnsupportedMessage]. *)
Theorem Pack_Unpack_registered_code_changes_body
        (body : UnsupportedMessage) (buffer : slice) :
  registered (Code body) = true ->
  len buffer = Size (P := P) (Message_Unsupported body) ->
  exists buffer' : slice,
    Pack buffer (Message_Unsupported body) = Done buffer'
    /\ forall (message' : option Message) (n : nat) (err : option error)
              (body' : UnsupportedMessage),
        Unpack buffer' None = Done (message', n, err) ->
        message' <> Some (Message_Unsupported body').
Proof.
  intros Hreg Hbuf.
  exists (mkSlice (Code body :: elems (Data body)) (spare buffer)).
  split.
  - unfold Pack, util.PackSome.
    cbn [util.Pack Message_Packable Message_Pack Message_MessageCode].
    unfold UnsupportedMessage_Pack, UnsupportedMessage_MessageCode.
    apply PackSome_byte_run. exact Hbuf.
  - intros message' n err body' Hunpack.
    rewrite Unpack_header
      with (code := Code body) (rest := elems (Data body)) in Hunpack
      by reflexivity.
    pose proof (@select_body_registered (Code body) Hreg) as Hsel.
    destruct (select_body (Code body)) as [lbm|b|k b] eqn:Hbody.
    + cbn [Message_Unpack] in Hunpack.
      destruct (LBusmonInd_Unpack lbm _) as [[lbm' m] e].
      cbn [bind] in Hunpack. injection Hunpack as <- _ _.
      destruct e; discriminate.
    + now contradiction (Hsel b).
    + cbn [Message_Unpack] in Hunpack.
      destruct (peer_Unpack k b _) as [[[b' m] e]|p]; [|discriminate Hunpack].
      cbn [bind] in Hunpack. injection Hunpack as <- _ _.
      destruct e; discriminate.
Qed.

(** For the bus-monitor code and for every code that is not registered,
    [Unpack] reads nothing behind [len(data)] and nothing of the caller's
    previous message: the outcome is that of the same bytes in a slice
    without spare capacity, whatever message was there before. *)
Theorem Unpack_reads_visible_bytes_only
        (data : slice) (code : byte) (rest : list byte)
        (message1 message2 : option Message) :
  elems data = code :: rest ->
  code = LBusmonIndCode \/ registered code = false ->
  Unpack (P := P) data message1 = Unpack (of_bytes (elems data)) message2.
Proof.
  intros Hdata [->|Hreg].
  - rewrite !Unpack_LBusmonInd_frame with (rest := rest)
      by (try assumption; cbn [elems of_bytes]; assumption).
    reflexivity.
  - rewrite !Unpack_unregistered_frame with (code := code) (rest := rest)
      by (try assumption; cbn [elems of_bytes]; assumption).
    reflexivity.
Qed.

(** [Pack] of a bus-monitor or raw message into a buffer of at least [Size]
    bytes: the buffer keeps its length; its first [Size] bytes become the
    code followed by the payload, and it keeps its bytes from index [Size]
    on. *)
Theorem Pack_fitting_buffer (buffer : slice) :
  (forall lbm : LBusmonInd,
      Size (P := P) (Message_LBusmonInd lbm) <= len buffer ->
      Pack (P := P) buffer (Message_LBusmonInd lbm)
      = Done (mkSlice (LBusmonIndCode :: elems lbm
                         ++ skipn (Size (P := P) (Message_LBusmonInd lbm)) (elems buffer))
                      (spare buffer)))
  /\ (forall body : UnsupportedMessage,
         Size (P := P) (Message_Unsupported body) <= len buffer ->
         Pack (P := P) buffer (Message_Unsupported body)
         = Done (mkSlice (Code body :: elems (Data body)
                            ++ skipn (Size (P := P) (Message_Unsupported body)) (elems buffer))
                         (spare buffer))).
Proof.
  split.
  - intros lbm Hsize. unfold Pack, util.PackSome.
    cbn [util.Pack Message_Packable Message_Pack Message_MessageCode].
    unfold LBusmonInd_Pack, LBusmonInd_MessageCode.
    unfold Size in *. cbn [util.Size Message_Packable Message_Size] in *.
    unfold LBusmonInd_Size in *.
    rewrite PackSome_byte_run_any by lia.
    rewrite firstn_all2 by (cbn [List.length]; unfold len in *; lia).
    reflexivity.
  - intros body Hsize. unfold Pack, util.PackSome.
    cbn [util.Pack Message_Packable Message_Pack Message_MessageCode].
    unfold UnsupportedMessage_Pack, UnsupportedMessage_MessageCode.
    unfold Size in *. cbn [util.Size Message_Packable Message_Size] in *.
    unfold UnsupportedMessage_Size in *.
    rewrite PackSome_byte_run_any by lia.
    rewrite firstn_all2 by (cbn [List.length]; unfold len in *; lia).
    reflexivity.
Qed.

Lemma select_body_shape (code : MessageCode) :
  (exists lbm : LBusmonInd, select_body (P := P) code = Message_LBusmonInd lbm)
  \/ (exists body : UnsupportedMessage, select_body (P := P) code = Message_Unsupported body)
  \/ (exists k : peer, select_body (P := P) code = Message_peer k (peer_zero k)).
Proof.
  unfold select_body.
  repeat match goal with
         | |- context [if ?c then _ else _] => destruct c
         end;
    first [ left; eexists; reflexivity
          | right; left; eexists; reflexivity
          | right; right; eexists; reflexivity ].
Qed.

(** [Unpack], called with a pointer that is not nil (the only calls this
    file models; with a nil pointer the assignment [*message = body]
    panics), does not panic on its own account: when such a call panics, the
    input has a code byte, the code selects one of the bodies declared
    outside this file, and the panic is the one of that body's [Unpack]
    method, run on its zero value and the bytes behind the code. *)
Theorem Unpack_panics_only_in_peer
        (data : slice) (message : option Message) (p : panic) :
  Unpack (P := P) data message = Panics p ->
  exists (code : byte) (rest : list byte) (k : peer),
    elems data = code :: rest
    /\ select_body (P := P) code = Message_peer k (peer_zero k)
    /\ peer_Unpack k (peer_zero k) (mkSlice rest (spare data)) = Panics p.
Proof.
  intros Hpanic.
  destruct (elems data) as [|code rest] eqn:Hdata.
  - unfold Unpack, util.Unpack_uint8 in Hpanic. rewrite Hdata in Hpanic.
    discriminate Hpanic.
  - rewrite Unpack_header with (code := code) (rest := rest) in Hpanic
      by assumption.
    destruct (select_body_shape code) as [[lbm Hsel]|[[body Hsel]|[k Hsel]]];
      rewrite Hsel in Hpanic; cbn [Message_Unpack] in Hpanic.
    + destruct (LBusmonInd_Unpack lbm _) as [[? ?] ?]. discriminate Hpanic.
    + destruct (UnsupportedMessage_Unpack body _) as [[? ?] ?]. discriminate Hpanic.
    + exists code, rest, k. split; [reflexivity|]. split; [exact Hsel|].
      destruct (peer_Unpack k (peer_zero k) _) as [[[? ?] ?]|q];
        [discriminate Hpanic | cbn [bind] in Hpanic; congruence].
Qed.

End MoreFrameProperties.

Lemma Unpack_empty_input_witness :
  exists e : error,
    Unpack (mkSlice [] [x2b; x01]) (Some (Message_LBusmonInd (of_bytes [x05])))
    = Done (Some (Message_LBusmonInd (of_bytes [x05])), 0, Some e).
Proof.
  apply (@Unpack_empty_input byte_run_peers (mkSlice [] [x2b; x01])
           (Some (Message_LBusmonInd (of_bytes [x05])))).
  reflexivity.
Defined.

Lemma Unpack_Pack_LBusmonInd_witness :
  exists (lbm : LBusmonInd) (buffer' : slice),
    Unpack (of_bytes [x2b; x01; x02; x03]) None
    = Done (Some (Message_LBusmonInd lbm), len (of_bytes [x2b; x01; x02; x03]), None)
    /\ elems lbm = [x01; x02; x03]
    /\ Size (Message_LBusmonInd lbm) = len (of_bytes [x2b; x01; x02; x03])
    /\ Pack (make 4) (Message_LBusmonInd lbm) = Done buffer'
    /\ elems buffer' = elems (of_bytes [x2b; x01; x02; x03]).
Proof.
  apply (@Unpack_Pack_LBusmonInd byte_run_peers
           (of_bytes [x2b; x01; x02; x03]) (make 4) [x01; x02; x03] None);
    reflexivity.
Defined.

Lemma Pack_Unpack_UnsupportedMessage_witness :
  exists (buffer' : slice) (body' : UnsupportedMessage),
    Pack (make 3) (Message_Unsupported (mkUnsupportedMessage x77 (of_bytes [x01; x02])))
    = Done buffer'
    /\ elems buffer'
       = Code (mkUnsupportedMessage x77 (of_bytes [x01; x02]))
           :: elems (Data (mkUnsupportedMessage x77 (of_bytes [x01; x02])))
    /\ Unpack buffer' None
       = Done (Some (Message_Unsupported body'),
               Size (Message_Unsupported (mkUnsupportedMessage x77 (of_bytes [x01; x02]))),
               None)
    /\ Code body' = Code (mkUnsupportedMessage x77 (of_bytes [x01; x02]))
    /\ elems (Data body') = elems (Data (mkUnsupportedMessage x77 (of_bytes [x01; x02]))).
Proof.
  apply (@Pack_Unpack_UnsupportedMessage byte_run_peers
           (mkUnsupportedMessage x77 (of_bytes [x01; x02])) (make 3) None);
    reflexivity.
Defined.

Lemma Pack_Unpack_registered_code_changes_body_witness :
  exists buffer' : slice,
    Pack (make 3) (Message_Unsupported (mkUnsupportedMessage x2b (of_bytes [x01; x02])))
    = Done buffer'
    /\ forall (message' : option Message) (n : nat) (err : option error)
              (body' : UnsupportedMessage),
        Unpack buffer' None = Done (message', n, err) ->
        message' <> Some (Message_Unsupported body').
Proof.
  apply (@Pack_Unpack_registered_code_changes_body byte_run_peers
           (mkUnsupportedMessage x2b (of_bytes [x01; x02])) (make 3));
    reflexivity.
Defined.

Lemma Unpack_reads_visible_bytes_only_witness :
  Unpack (mkSlice [x77; x01] [x02; x03]) (Some (Message_LBusmonInd (of_bytes [x05])))
  = Unpack (of_bytes (elems (mkSlice [x77; x01] [x02; x03]))) None.
Proof.
  apply (@Unpack_reads_visible_bytes_only byte_run_peers
           (mkSlice [x77; x01] [x02; x03]) x77 [x01]
           (Some (Message_LBusmonInd (of_bytes [x05]))) None).
  - reflexivity.
  - right. reflexivity.
Defined.

Lemma Pack_fitting_buffer_witness :
  Pack (of_bytes [x0a; x0b; x0c; x0d; x0e]) (Message_LBusmonInd (of_bytes [x01; x02]))
  = Done (mkSlice (LBusmonIndCode :: elems (of_bytes [x01; x02])
                     ++ skipn (Size (Message_LBusmonInd (of_bytes [x01; x02])))
                          (elems (of_bytes [x0a; x0b; x0c; x0d; x0e])))
                  (spare (of_bytes [x0a; x0b; x0c; x0d; x0e])))
  /\ Pack (of_bytes [x0a; x0b; x0c; x0d; x0e])
          (Message_Unsupported (mkUnsupportedMessage x77 (of_bytes [x01; x02])))
     = Done (mkSlice (x77 :: [x01; x02]
                        ++ skipn (Size (Message_Unsupported
                                          (mkUnsupportedMessage x77 (of_bytes [x01; x02]))))
                             (elems (of_bytes [x0a; x0b; x0c; x0d; x0e])))
                     (spare (of_bytes [x0a; x0b; x0c; x0d; x0e]))).
Proof.
  destruct (@Pack_fitting_buffer byte_run_peers (of_bytes [x0a; x0b; x0c; x0d; x0e]))
    as [Hmonitor Hraw].
  split.
  - apply Hmonitor. vm_compute. lia.
  - apply (Hraw (mkUnsupportedMessage x77 (of_bytes [x01; x02]))). vm_compute. lia.
Defined.

Lemma Unpack_panics_only_in_peer_witness :
  let indexing_peers : Peers :=
    {| peer_body := fun _ => slice;
       peer_zero := fun _ => nil_slice;
       peer_MessageCode := fun _ _ => x00;
       peer_Size := fun _ b => len b;
       peer_Pack := fun _ b buffer => Done (fst (copy buffer b));
       peer_Unpack := fun _ b data =>
         v <- index data 0 ;; Done (of_bytes [v], 1, None) |} in
  exists (code : byte) (rest : list byte) (k : peer),
    elems (of_bytes [x11]) = code :: rest
    /\ select_body (P := indexing_peers) code
       = Message_peer k (@peer_zero indexing_peers k)
    /\ @peer_Unpack indexing_peers k (@peer_zero indexing_peers k)
         (mkSlice rest (spare (of_bytes [x11])))
       = Panics IndexOutOfRange.
Proof.
  intros indexing_peers.
  apply (@Unpack_panics_only_in_peer indexing_peers (of_bytes [x11]) None
                                     IndexOutOfRange).
  reflexivity.
Defined.
